(** * WhatsApp Pro Bot: tier store, payment gate and command router

    A shallow embedding of [services/userDb.js], [middleware/paymentGate.js],
    [services/emailService.js], [handlers/commandHandler.js] and the
    listener of incoming messages of [index.js].

    Modelling conventions.
    - A JavaScript string is a [string]: the bytes of its UTF-8 encoding.
      White space, for [trim] and for the regular expression [/\s+/], is
      the WhiteSpace and LineTerminator of ECMAScript, each character
      recognised by the bytes of its encoding.  [toLowerCase] maps the
      letters A to Z and leaves every other byte as it is; the lower case of
      a character outside ASCII has a character outside ASCII or is the
      letter k, which no command name has, so the comparisons of the router
      with the command names are those of the code.  Only the pairing
      code of [index.js], whose characters are counted, is a list of UTF-16
      code units.
    - The module-level [Map] of [userDb.js] is a [gmap string User].
    - A [Date] is the integer number of milliseconds it holds.  A function
      that evaluates [new Date()] takes the value read from the clock as its
      argument [now].
    - An [async] function is a computation over the [World] that either
      returns a value or throws (a rejected promise). *)

From Stdlib Require Import ZArith Ascii String.
From stdpp Require Import gmap strings list fin_maps pretty.

Local Open Scope string_scope.
Local Open Scope Z_scope.

(** ** JavaScript string primitives used by the router *)

Module JsString.

(** The line feed of the ["\n"] escapes. *)
Definition nl : string := String "010"%char EmptyString.

(** [Array.prototype.join]. *)
Fixpoint join (sep : string) (l : list string) : string :=
  match l with
  | [] => EmptyString
  | [x] => x
  | x :: l' => x +:+ sep +:+ join sep l'
  end.

Fixpoint startsWith (p s : string) : bool :=
  match p, s with
  | EmptyString, _ => true
  | String a p', String b s' => if decide (a = b) then startsWith p' s' else false
  | String _ _, EmptyString => false
  end.

(** The string of the bytes with the given codes. *)
Definition bytes (codes : list Z) : string :=
  foldr (λ n s, String (Ascii.ascii_of_N (Z.to_N n)) s) EmptyString codes.

(** The characters [trim] strips and [\s] matches (WhiteSpace and
    LineTerminator), in UTF-8. *)
Definition whiteSpace : list string :=
  [ bytes [9]; bytes [10]; bytes [11]; bytes [12]; bytes [13]; bytes [32];
    bytes [194; 160];          (* U+00A0 *)
    bytes [225; 154; 128];     (* U+1680 *)
    bytes [226; 128; 128];     (* U+2000 *)
    bytes [226; 128; 129];     (* U+2001 *)
    bytes [226; 128; 130];     (* U+2002 *)
    bytes [226; 128; 131];     (* U+2003 *)
    bytes [226; 128; 132];     (* U+2004 *)
    bytes [226; 128; 133];     (* U+2005 *)
    bytes [226; 128; 134];     (* U+2006 *)
    bytes [226; 128; 135];     (* U+2007 *)
    bytes [226; 128; 136];     (* U+2008 *)
    bytes [226; 128; 137];     (* U+2009 *)
    bytes [226; 128; 138];     (* U+200A *)
    bytes [226; 128; 168];     (* U+2028 *)
    bytes [226; 128; 169];     (* U+2029 *)
    bytes [226; 128; 175];     (* U+202F *)
    bytes [226; 129; 159];     (* U+205F *)
    bytes [227; 128; 128];     (* U+3000 *)
    bytes [239; 187; 191] ].   (* U+FEFF *)

(** The number of bytes of the white-space character [s] starts with, and
    [0] when [s] starts with none. *)
Definition wsWidth (s : string) : nat :=
  match List.find (λ p, startsWith p s) whiteSpace with
  | Some p => String.length p
  | None => O
  end.

(** The functions below read [s] byte by byte; [skip] counts the bytes that
    are left of a white-space character whose first byte has been read. *)
Fixpoint trimStart_go (skip : nat) (s : string) : string :=
  match s with
  | EmptyString => EmptyString
  | String _ s' =>
      match skip with
      | S k => trimStart_go k s'
      | O =>
          match wsWidth s with
          | S k => trimStart_go k s'
          | O => s
          end
      end
  end.

Definition trimStart (s : string) : string := trimStart_go 0 s.

(** [s] is made of white-space characters only. *)
Fixpoint blank_go (skip : nat) (s : string) : bool :=
  match s with
  | EmptyString => true
  | String _ s' =>
      match skip with
      | S k => blank_go k s'
      | O =>
          match wsWidth s with
          | S k => blank_go k s'
          | O => false
          end
      end
  end.

Definition blank (s : string) : bool := blank_go 0 s.

(** What is left of [s] when the white space at its end is taken off. *)
Fixpoint trimEnd (s : string) : string :=
  match s with
  | EmptyString => EmptyString
  | String c s' => if blank s then EmptyString else String c (trimEnd s')
  end.

(** [String.prototype.trim]: strips white space at both ends. *)
Definition trim (s : string) : string := trimEnd (trimStart s).

(** [s.split(/\s+/)].  [cur] is the piece being read, reversed;
    [inSep] tells that the previous character belonged to a separator.
    A separator at the very start or end yields an empty piece there, and
    the empty string yields one empty piece. *)
Fixpoint split_go (skip : nat) (inSep : bool) (cur : string) (s : string)
    : list string :=
  match s with
  | EmptyString => [String.rev cur]
  | String c s' =>
      match skip with
      | S k => split_go k true EmptyString s'
      | O =>
          match wsWidth s with
          | S k =>
              if inSep then split_go k true EmptyString s'
              else String.rev cur :: split_go k true EmptyString s'
          | O => split_go 0 false (String c cur) s'
          end
      end
  end.

Definition split_ws (s : string) : list string :=
  split_go 0 false EmptyString s.

Definition lowerChar (c : ascii) : ascii :=
  let n := Ascii.N_of_ascii c in
  if ((65 <=? n) && (n <=? 90))%N then Ascii.ascii_of_N (n + 32) else c.

(** [String.prototype.toLowerCase]. *)
Fixpoint toLowerCase (s : string) : string :=
  match s with
  | EmptyString => EmptyString
  | String c s' => String (lowerChar c) (toLowerCase s')
  end.

(** [String.prototype.includes]: [needle] occurs somewhere in [s]. *)
Fixpoint includes (s needle : string) : bool :=
  startsWith needle s ||
  match s with
  | EmptyString => false
  | String _ s' => includes s' needle
  end.

End JsString.

(** ** services/userDb.js *)

Module UserDb.

(** The user record; [email] and [upgradedAt] are [null] when [None]. *)
Record User := mkUser {
  jid : string;
  isPro : bool;
  email : option string;
  upgradedAt : option Z
}.

Definition set_isPro (b : bool) (u : User) : User :=
  mkUser (jid u) b (email u) (upgradedAt u).
Definition set_email (e : option string) (u : User) : User :=
  mkUser (jid u) (isPro u) e (upgradedAt u).
Definition set_upgradedAt (d : option Z) (u : User) : User :=
  mkUser (jid u) (isPro u) (email u) d.

(** The record [getUser] creates for an unknown JID. *)
Definition defaultUser (j : string) : User := mkUser j false None None.

(** The record the start-up loop stores for a configured Pro JID. *)
Definition seededUser (j : string) (now : Z) : User :=
  mkUser j true None (Some now).

(** The seeding loop over [config.initialProUsers]; every JID comes with
    the value [new Date()] has in its iteration. *)
Definition seed (initialProUsers : list (string * Z)) : gmap string User :=
  foldl (λ users '(j, now), <[j := seededUser j now]> users) ∅ initialProUsers.

Definition getUser (j : string) (users : gmap string User)
  : User * gmap string User :=
  match users !! j with
  | Some u => (u, users)
  | None => (defaultUser j, <[j := defaultUser j]> users)
  end.

Definition isProUser (j : string) (users : gmap string User)
  : bool * gmap string User :=
  let '(u, users) := getUser j users in
  (Bool.eqb (isPro u) true, users).

(** JavaScript truthiness of an optional string argument. *)
Definition truthy (s : option string) : bool :=
  match s with
  | None => false
  | Some s => negb (bool_decide (s = EmptyString))
  end.

Definition upgradeUserToPro (now : Z) (j : string) (mail : option string)
    (users : gmap string User) : User * gmap string User :=
  let '(user, users) := getUser j users in
  let user := set_isPro true user in
  let user := set_upgradedAt (Some now) user in
  let user := if truthy mail then set_email mail user else user in
  (user, <[j := user]> users).

Definition revokeProAccess (j : string) (users : gmap string User)
  : User * gmap string User :=
  let '(user, users) := getUser j users in
  let user := set_isPro false user in
  (user, <[j := user]> users).

(** [[...users.values()]]; the order of the list is the map's own, which
    is not the insertion order of a JavaScript [Map]. *)
Definition listAllUsers (users : gmap string User) : list User :=
  (map_to_list users).*2.

End UserDb.


(** ** The world the handlers act on *)

Module Effects.
Import UserDb.

(** What a rejected promise carries: the [message] of the error. *)
Definition Error : Type := string.

(** The argument of [transporter.sendMail].  [from], [subject], [text] and
    [html] are fixed by the configuration and by the two fields kept. *)
Record MailOptions := mkMail { to : string; forJid : string }.

Inductive MailResult :=
| MailSent (messageId : string)
| MailRejected (err : Error).

(** [sock.sendMessage(jid, { text })]: [None] when the promise resolves,
    [Some err] when it rejects. *)
Definition Sock : Type := string → string → option Error.

(** What the modules take from their surroundings. *)
Record Host := mkHost {
  payment_link : string;                     (* config.payment.link *)
  env_ADMIN_JID : option string;             (* process.env.ADMIN_JID *)
  sendMail : MailOptions → MailResult;       (* transporter.sendMail *)
  toDateString : Z → string                  (* Date.prototype.toDateString *)
}.

(** The store of [userDb.js] and the record of what was asked of the
    outside: every call of [sock.sendMessage] (resolved or rejected), every
    call of [transporter.sendMail], every line written to the console. *)
Record World := mkWorld {
  users : gmap string User;
  sent : list (string * string);
  mails : list MailOptions;
  console : list string
}.

Inductive Outcome (A : Type) :=
| Returned (a : A)
| Thrown (e : Error).
Global Arguments Returned {A} a.
Global Arguments Thrown {A} e.

Definition Async (A : Type) : Type := World → Outcome A * World.

Global Instance Async_ret : MRet Async := λ A a w, (Returned a, w).

(** [await]: a rejection ends the caller, the world stays as it is. *)
Global Instance Async_bind : MBind Async := λ A B k m w,
  match m w with
  | (Returned a, w') => k a w'
  | (Thrown e, w') => (Thrown e, w')
  end.

Definition throw {A} (e : Error) : Async A := λ w, (Thrown e, w).

(** [try { m } catch (err) { handler err }] and [promise.catch(handler)]. *)
Definition tryCatch {A} (m : Async A) (handler : Error → Async A) : Async A :=
  λ w, match m w with
       | (Returned a, w') => (Returned a, w')
       | (Thrown e, w') => handler e w'
       end.

(** A function of [userDb.js] run on the store of the world. *)
Definition onStore {A} (f : gmap string User → A * gmap string User) : Async A :=
  λ w, let '(a, us) := f (users w) in
       (Returned a, mkWorld us (sent w) (mails w) (console w)).

Definition sendMessage (sock : Sock) (j text : string) : Async unit :=
  λ w, let w' := mkWorld (users w) (sent w ++ [(j, text)]) (mails w) (console w) in
       match sock j text with
       | None => (Returned (), w')
       | Some err => (Thrown err, w')
       end.

Definition callSendMail (h : Host) (m : MailOptions) : Async string :=
  λ w, let w' := mkWorld (users w) (sent w) (mails w ++ [m]) (console w) in
       match sendMail h m with
       | MailSent messageId => (Returned messageId, w')
       | MailRejected err => (Thrown err, w')
       end.

(** [console.log] and [console.error]. *)
Definition logged (line : string) (w : World) : World :=
  mkWorld (users w) (sent w) (mails w) (console w ++ [line]).

Definition log (line : string) : Async unit :=
  λ w, (Returned (), logged line w).

End Effects.

(** ** middleware/paymentGate.js *)

Module PaymentGate.
Import JsString UserDb Effects.

Definition paymentMessage (h : Host) : string :=
  join nl [
    "🔒 *Pro Feature — Payment Required*" +:+ nl;
    "This command is only available to *Pro* subscribers." +:+ nl;
    "━━━━━━━━━━━━━━━━━━━━━━";
    "💎 *Upgrade to Pro* and unlock:";
    "  • /premium commands";
    "  • Priority support";
    "  • Exclusive features" +:+ nl;
    "💳 *Pay & Upgrade Now:*" +:+ nl +:+ payment_link h +:+ nl;
    "━━━━━━━━━━━━━━━━━━━━━━";
    "_After payment, send /activate <your-email> to unlock your account._"
  ].

(** [true]: the gate was triggered and the caller returns early;
    [false]: the user is Pro and the caller goes on. *)
Definition requirePro (h : Host) (sock : Sock) (j : string) : Async bool :=
  pro ← onStore (isProUser j);
  if pro : bool then mret false
  else sendMessage sock j (paymentMessage h);; mret true.

End PaymentGate.

(** ** services/emailService.js *)

Module EmailService.
Import JsString Effects.

Definition sendWelcomeEmail (h : Host) (toEmail j : string) : Async string :=
  let mailOptions := mkMail toEmail j in
  tryCatch
    (info ← callSendMail h mailOptions;
     log ("[Email] Welcome email sent to " +:+ toEmail
            +:+ " (msgId: " +:+ info +:+ ")");;
     mret info)
    (λ err,
     log ("[Email] Failed to send welcome email to " +:+ toEmail
            +:+ ": " +:+ err);;
     throw err).

End EmailService.

(** ** handlers/commandHandler.js *)

Module CommandHandler.
Import JsString UserDb Effects PaymentGate EmailService.

(** [process.env.ADMIN_JID || "15550000000@s.whatsapp.net"]. *)
Definition ADMIN_JID (h : Host) : string :=
  match env_ADMIN_JID h with
  | Some s => if truthy (Some s) then s else "15550000000@s.whatsapp.net"
  | None => "15550000000@s.whatsapp.net"
  end.

(** Send a plain text reply to the message sender. *)
Definition reply (sock : Sock) (j text : string) : Async unit :=
  sendMessage sock j text.

Definition menu : string :=
  join nl [
    "👋 *Welcome to the WhatsApp Pro Bot!*" +:+ nl;
    "Here are the available commands:" +:+ nl;
    "📌 */start*    — Show this menu";
    "📌 */status*   — Check your account tier";
    "💎 */premium*  — Access Pro features _(Pro only)_";
    "🔑 */activate <email>* — Activate Pro after payment";
    "━━━━━━━━━━━━━━━━━━━━━━";
    "_Powered by Baileys + Node.js_"
  ].

Definition handleStart (sock : Sock) (j : string) : Async unit :=
  reply sock j menu.

Definition statusText (h : Host) (user : User) : string :=
  let tier := if isPro user then "⭐ *Pro*" else "🆓 *Free*" in
  let since :=
    match upgradedAt user with
    | Some d => nl +:+ "_Pro since: " +:+ toDateString h d +:+ "_"
    | None => EmptyString
    end in
  "Your current tier: " +:+ tier +:+ since.

Definition handleStatus (h : Host) (sock : Sock) (j : string) : Async unit :=
  user ← onStore (getUser j);
  reply sock j (statusText h user).

Definition proZone : string :=
  join nl [
    "🌟 *Welcome to the Pro Zone!*" +:+ nl;
    "You have access to all premium features:" +:+ nl;
    "✅ Advanced analytics";
    "✅ Unlimited requests";
    "✅ Priority support queue";
    "✅ Beta feature access" +:+ nl;
    "_More features coming soon — stay tuned!_"
  ].

Definition handlePremium (h : Host) (sock : Sock) (j : string) : Async unit :=
  blocked ← requirePro h sock j;
  if blocked : bool then mret ()
  else reply sock j proZone.

Definition usageError : string :=
  "⚠️ Please provide a valid email." +:+ nl +:+ "Usage: */activate your@email.com*".

Definition alreadyPro : string :=
  "✅ Your account is already *Pro*! Enjoy the features 🎉".

Definition congratulations (mail : string) : string :=
  "🎉 *Congratulations!* Your account has been upgraded to *Pro*." +:+ nl +:+ nl
  +:+ "A welcome email is being sent to: _" +:+ mail +:+ "_" +:+ nl +:+ nl
  +:+ "Type */premium* to explore your new features!".

(** [!email || !email.includes("@")] for [email = args[0]]. *)
Definition invalidEmail (arg0 : option string) : bool :=
  match arg0 with
  | None => true
  | Some mail => negb (truthy (Some mail)) || negb (includes mail "@")
  end.

(** The welcome email is started after the reply and is not awaited; its
    rejection is caught and logged.  The steps of the detached promise are
    placed at the end of the handler. *)
Definition handleActivate (h : Host) (sock : Sock) (now : Z) (j : string)
    (args : list string) : Async unit :=
  let email := head args in
  if invalidEmail email then reply sock j usageError
  else
    match email with
    | None => reply sock j usageError
    | Some mail =>
        user ← onStore (getUser j);
        if isPro user then reply sock j alreadyPro
        else
          onStore (upgradeUserToPro now j (Some mail));;
          reply sock j (congratulations mail);;
          tryCatch
            (sendWelcomeEmail h mail j;; mret ())
            (λ err, log ("[Activate] Email send error: " +:+ err))
    end.

(** What the detached welcome email writes to the console: the success
    line of [sendWelcomeEmail], or its failure line followed by the line of
    the [catch] in [handleActivate]. *)
Definition emailLines (h : Host) (mail j : string) : list string :=
  match sendMail h (mkMail mail j) with
  | MailSent messageId =>
      ["[Email] Welcome email sent to " +:+ mail +:+ " (msgId: "
         +:+ messageId +:+ ")"]
  | MailRejected err =>
      ["[Email] Failed to send welcome email to " +:+ mail +:+ ": " +:+ err;
       "[Activate] Email send error: " +:+ err]
  end.

Definition adminDenied : string :=
  "🚫 *Access Denied.* This command is for admins only.".

Definition adminPanel (total proCount free : Z) : string :=
  join nl [
    "🛡️ *Admin Panel*" +:+ nl;
    "👤 Total users tracked: *" +:+ pretty total +:+ "*";
    "⭐ Pro users:           *" +:+ pretty proCount +:+ "*";
    "🆓 Free users:          *" +:+ pretty free +:+ "*"
  ].

Definition handleAdmin (h : Host) (sock : Sock) (j : string) : Async unit :=
  blocked ← requirePro h sock j;
  if blocked : bool then mret ()
  else if negb (j =? ADMIN_JID h)%string then reply sock j adminDenied
  else
    allUsers ← onStore (λ us, (listAllUsers us, us));
    let total := Z.of_nat (length allUsers) in
    let proCount := Z.of_nat (length (filter (λ u, isPro u = true) allUsers)) in
    reply sock j (adminPanel total proCount (total - proCount)).

(** [`[Command] ${jid} → ${command} ${args.join(" ")}`]. *)
Definition commandLine (j command : string) (args : list string) : string :=
  "[Command] " +:+ j +:+ " → " +:+ command +:+ " " +:+ join " " args.

(** Route an incoming text message to the correct handler.  The pattern
    [[command, ...args]] leaves [command] undefined on an empty array, and
    [command.toLowerCase()] then throws. *)
Definition handleMessage (h : Host) (sock : Sock) (now : Z) (j text : string)
    : Async unit :=
  let trimmed := trim text in
  match split_ws trimmed with
  | [] =>
      log ("[Command] " +:+ j +:+ " → undefined ");;
      throw "TypeError: Cannot read properties of undefined"
  | command :: args =>
      log (commandLine j command args);;
      let c := toLowerCase command in
      if (c =? "/start")%string || (c =? "/help")%string then handleStart sock j
      else if (c =? "/status")%string then handleStatus h sock j
      else if (c =? "/premium")%string then handlePremium h sock j
      else if (c =? "/activate")%string then handleActivate h sock now j args
      else if (c =? "/admin")%string then handleAdmin h sock j
      else mret ()
  end.

End CommandHandler.

(** ** services/emailService.js: the text of the welcome email *)

Module WelcomeEmail.
Import JsString.

Fixpoint dropChars (n : nat) (s : string) : string :=
  match n, s with
  | O, _ => s
  | S n', String _ s' => dropChars n' s'
  | S _, EmptyString => EmptyString
  end.

(** [s.replace(pattern, "")] for a string [pattern]: the first occurrence
    of [pattern] is taken out, and [s] is returned as it is when there is
    none. *)
Fixpoint removeFirst (pattern s : string) : string :=
  if startsWith pattern s then dropChars (String.length pattern) s
  else match s with
       | EmptyString => EmptyString
       | String c s' => String c (removeFirst pattern s')
       end.

(** [jid.replace("@s.whatsapp.net", "")]. *)
Definition displayPhone (j : string) : string :=
  removeFirst "@s.whatsapp.net" j.

(** The [text] field of the mail options. *)
Definition welcomeText (j : string) : string :=
  "Hi! Your WhatsApp account (+" +:+ displayPhone j
  +:+ ") has been upgraded to Pro. Enjoy all premium features!".

End WelcomeEmail.

(** ** index.js: the pairing code and the listener of incoming messages *)

Module Index.
Import JsString UserDb Effects CommandHandler.

(** The pairing code is read as the sequence of its UTF-16 code units,
    which is what the regular expression and [padEnd] count. *)

(** The code units the dot of a regular expression does not match:
    LF, CR, U+2028 and U+2029. *)
Definition isLineTerminator (u : N) : bool :=
  ((u =? 10) || (u =? 13) || (u =? 8232) || (u =? 8233))%N.

Definition flush (cur : list N) : list (list N) :=
  match cur with
  | [] => []
  | _ => [rev cur]
  end.

(** The matches of [/.{1,4}/g], left to right: [cur] is the match being
    read, reversed, and [k] its length. *)
Fixpoint match4_go (k : nat) (cur : list N) (s : list N) : list (list N) :=
  match s with
  | [] => flush cur
  | u :: s' =>
      if isLineTerminator u then flush cur ++ match4_go 0 [] s'
      else if (k <? 4)%nat then match4_go (S k) (u :: cur) s'
      else rev cur :: match4_go 1 [u] s'
  end.

(** [s.match(/.{1,4}/g)]; [None] is the [null] of a string without match. *)
Definition match4 (s : list N) : option (list (list N)) :=
  match match4_go 0 [] s with
  | [] => None
  | l => Some l
  end.

(** [groups.join("-")]; 45 is the code unit of the dash. *)
Fixpoint joinDash (groups : list (list N)) : list N :=
  match groups with
  | [] => []
  | [g] => g
  | g :: groups' => g ++ 45%N :: joinDash groups'
  end.

(** [s.padEnd(n)]; 32 is the code unit of the space. *)
Definition padEnd (n : nat) (s : list N) : list N :=
  s ++ replicate (n - length s) 32%N.

(** [pairingCode.match(/.{1,4}/g).join("-").padEnd(37)]; [None] when
    [match] gives [null] and [.join] throws. *)
Definition formatPairingCode (pairingCode : list N) : option (list N) :=
  match match4 pairingCode with
  | None => None
  | Some groups => Some (padEnd 37 (joinDash groups))
  end.

(** An incoming message, as far as the listener reads it. *)
Record MessageKey := mkKey {
  fromMe : bool;
  remoteJid : option string
}.

Record ExtendedTextMessage := mkExtended { text : option string }.

Record MessageContent := mkContent {
  conversation : option string;
  extendedTextMessage : option ExtendedTextMessage
}.

Record WAMessage := mkMessage {
  key : MessageKey;
  message : option MessageContent
}.

(** [a || b] on optional strings. *)
Definition orElse (a b : option string) : option string :=
  if truthy a then a else b.

(** [msg.message?.conversation || msg.message?.extendedTextMessage?.text || ""]. *)
Definition textOf (msg : WAMessage) : string :=
  let conv :=
    match message msg with
    | Some m => conversation m
    | None => None
    end in
  let extended :=
    match message msg with
    | Some m =>
        match extendedTextMessage m with
        | Some e => text e
        | None => None
        end
    | None => None
    end in
  default EmptyString (orElse (orElse conv extended) (Some EmptyString)).

Definition internalError : string :=
  "⚠️ An internal error occurred. Please try again later.".

(** The body of the [for] loop over [messages]; every message comes with
    the value the clock has while it is handled.  [continue] goes on with
    the rest, [return] ends the listener. *)
Fixpoint upsertLoop (h : Host) (sock : Sock) (messages : list (Z * WAMessage))
    : Async unit :=
  match messages with
  | [] => mret ()
  | (now, msg) :: rest =>
      if fromMe (key msg) then upsertLoop h sock rest
      else
        let senderJid := remoteJid (key msg) in
        if negb (truthy senderJid) then upsertLoop h sock rest
        else
          match senderJid with
          | None => upsertLoop h sock rest
          | Some sender =>
              let text := textOf msg in
              if negb (startsWith "/" text) then mret ()
              else
                tryCatch
                  (handleMessage h sock now sender text)
                  (λ err,
                   log ("[Bot] Error handling message from " +:+ sender
                          +:+ ": " +:+ err);;
                   tryCatch (sendMessage sock sender internalError)
                            (λ _, mret ()));;
                upsertLoop h sock rest
          end
  end.

(** The listener of ["messages.upsert"]. *)
Definition onMessagesUpsert (h : Host) (sock : Sock) (type : string)
    (messages : list (Z * WAMessage)) : Async unit :=
  if negb (type =? "notify")%string then mret ()
  else upsertLoop h sock messages.

End Index.

(** ** Histories of the store *)

Module History.
Import UserDb.

(** A call of the public interface of [userDb.js]. *)
Inductive StoreCall :=
| CallGetUser (j : string)
| CallIsProUser (j : string)
| CallUpgrade (now : Z) (j : string) (mail : option string)
| CallRevoke (j : string)
| CallListAll.

Definition call (c : StoreCall) (users : gmap string User) : gmap string User :=
  match c with
  | CallGetUser j => (getUser j users).2
  | CallIsProUser j => (isProUser j users).2
  | CallUpgrade now j mail => (upgradeUserToPro now j mail users).2
  | CallRevoke j => (revokeProAccess j users).2
  | CallListAll => users
  end.

Definition run (calls : list StoreCall) (users : gmap string User)
  : gmap string User :=
  foldl (λ us c, call c us) users calls.

(** The store after seeding and a sequence of calls. *)
Definition reached (seeds : list (string * Z)) (calls : list StoreCall)
  : gmap string User :=
  run calls (seed seeds).

(** The tier of an identity: Pro when its record says so, Free otherwise
    (also when there is no record yet). *)
Definition tierIsPro (users : gmap string User) (j : string) : bool :=
  match users !! j with
  | Some u => isPro u
  | None => false
  end.

Definition upgradedAtOf (users : gmap string User) (j : string) : option Z :=
  users !! j ≫= upgradedAt.

(** From the specification: the time stamp of the latest call at which the
    tier of [j] went from Free to Pro, [None] when there was none. *)
Fixpoint transitionStamp (j : string) (users : gmap string User)
    (stamp : option Z) (calls : list StoreCall) : option Z :=
  match calls with
  | [] => stamp
  | c :: calls' =>
      let users' := call c users in
      let stamp' :=
        if negb (tierIsPro users j) && tierIsPro users' j
        then match c with CallUpgrade now _ _ => Some now | _ => stamp end
        else stamp in
      transitionStamp j users' stamp' calls'
  end.

Definition specUpgradedAt (seeds : list (string * Z)) (calls : list StoreCall)
    (j : string) : option Z :=
  transitionStamp j (seed seeds) None calls.

(** From the code: the time stamp of the latest seeding or upgrade call
    that names [j]. *)
Definition seedStamp (seeds : list (string * Z)) (j : string) : option Z :=
  foldl (λ acc '(j', now), if decide (j' = j) then Some now else acc) None seeds.

Definition callStamp (j : string) (stamp : option Z) (c : StoreCall) : option Z :=
  match c with
  | CallUpgrade now j' _ => if decide (j' = j) then Some now else stamp
  | _ => stamp
  end.

Definition lastStamp (seeds : list (string * Z)) (calls : list StoreCall)
    (j : string) : option Z :=
  foldl (callStamp j) (seedStamp seeds j) calls.

End History.

(** ** What the properties observe *)

Module Observe.
Import JsString UserDb Effects.

(** The three numbers of the admin panel, counted on the store. *)
Definition totalCount (users : gmap string User) : Z :=
  Z.of_nat (length (listAllUsers users)).
Definition proCount (users : gmap string User) : Z :=
  Z.of_nat (length (filter (λ u, isPro u = true) (listAllUsers users))).
Definition freeCount (users : gmap string User) : Z :=
  Z.of_nat (length (filter (λ u, isPro u = false) (listAllUsers users))).

(** The labels of the [switch] in [handleMessage]. *)
Definition knownCommands : list string :=
  ["/start"; "/help"; "/status"; "/premium"; "/activate"; "/admin"].

(** The first white-space delimited piece of a message. *)
Definition firstToken (text : string) : string :=
  default EmptyString (head (split_ws (trim text))).

(** How an awaited [sock.sendMessage] ends. *)
Definition outcomeOf (answer : option Error) : Outcome unit :=
  match answer with None => Returned () | Some e => Thrown e end.

(** Every Pro record carries a time stamp. *)
Definition proStamped (users : gmap string User) : Prop :=
  ∀ j u, users !! j = Some u → isPro u = true → upgradedAt u ≠ None.

End Observe.

(** ** Further notions the properties use *)

Module Notions.
Import JsString UserDb Effects CommandHandler WelcomeEmail Index.

(** Every record is stored under its own JID. *)
Definition keyed (users : gmap string User) : Prop :=
  ∀ k u, users !! k = Some u → jid u = k.

(** [text] is an [/activate] command whose first argument is the valid
    email [mail]. *)
Definition activateRequest (text mail : string) : Prop :=
  ∃ cmd rest, split_ws (trim text) = cmd :: mail :: rest
              ∧ toLowerCase cmd = "/activate"
              ∧ invalidEmail (Some mail) = false.

Definition noAtSign (s : string) : Prop := includes s "@" = false.

(** A message the loop handles: not sent by the bot, with a sender. *)
Definition fromOthers (entry : Z * WAMessage) : bool :=
  negb (fromMe (key entry.2)) && truthy (remoteJid (key entry.2)).

(** The world after the catch of the listener: the error line and the call
    that sends the notice. *)
Definition afterCatch (sender : string) (e : Error) (w : World) : World :=
  mkWorld (users w) (sent w ++ [(sender, internalError)]) (mails w)
          (console w ++ ["[Bot] Error handling message from " +:+ sender
                           +:+ ": " +:+ e]).



End Notions.

(** ** Concrete hosts and worlds used to run the model *)

Module Samples.
Import UserDb Effects.

(** A host whose mail transport rejects every message. *)
Definition mailDown : Host :=
  mkHost "https://pay.example/pro" None
         (λ _, MailRejected "smtp down") (λ _, "Mon Jan 01 2024").

(** A host whose mail transport accepts every message. *)
Definition mailUp : Host :=
  mkHost "https://pay.example/pro" None
         (λ _, MailSent "<id-1>") (λ _, "Mon Jan 01 2024").

(** A socket that delivers everything, and one that delivers nothing. *)
Definition openSock : Sock := λ _ _, None.
Definition deadSock : Sock := λ _ _, Some "Connection Closed".

Definition emptyWorld : World := mkWorld ∅ [] [] [].

Definition proWorld (j : string) : World :=
  mkWorld {[ j := mkUser j true (Some "old@mail.org") (Some 7) ]} [] [] [].

End Samples.

(** * Properties *)

Import JsString UserDb Effects PaymentGate EmailService CommandHandler History Observe Samples.

Local Open Scope list_scope.

(** ** Strings *)

Lemma startsWith_app (p s : string) : startsWith p (p +:+ s) = true.
Proof.
  induction p as [|a p IH]; [reflexivity|].
  change (String a p +:+ s) with (String a (p +:+ s)).
  simpl. rewrite decide_True by reflexivity. exact IH.
Qed.

Lemma includes_startsWith (p s : string) :
  startsWith p s = true → includes s p = true.
Proof. intros H. destruct s; cbn [includes]; rewrite H; reflexivity. Qed.

Lemma startsWith_app_r (p s b : string) :
  startsWith p s = true → startsWith p (s +:+ b) = true.
Proof.
  revert s. induction p as [|a p IH]; intros s H; [reflexivity|].
  destruct s as [|c s]; [discriminate|].
  change (String c s +:+ b) with (String c (s +:+ b)).
  simpl in *. destruct (decide (a = c)); [auto|discriminate].
Qed.

Lemma includes_app_r (s b p : string) :
  includes s p = true → includes (s +:+ b) p = true.
Proof.
  induction s as [|c s IH]; intros H.
  - cbn [includes] in H. rewrite orb_false_r in H.
    apply includes_startsWith. apply (startsWith_app_r p EmptyString b H).
  - change (String c s +:+ b) with (String c (s +:+ b)).
    cbn [includes] in *. apply orb_true_iff in H as [H|H].
    + apply (startsWith_app_r p _ b) in H.
      change (String c s +:+ b) with (String c (s +:+ b)) in H.
      rewrite H. reflexivity.
    + rewrite (IH H). apply orb_true_r.
Qed.

Lemma includes_app_l (a s p : string) :
  includes s p = true → includes (a +:+ s) p = true.
Proof.
  intros H. induction a as [|c a IH]; [exact H|].
  change (String c a +:+ s) with (String c (a +:+ s)).
  cbn [includes]. rewrite IH. apply orb_true_r.
Qed.

Lemma paymentMessage_link (h : Host) :
  includes (paymentMessage h) (payment_link h) = true.
Proof.
  unfold paymentMessage. cbn [join].
  do 14 apply includes_app_l. apply includes_app_r.
  do 2 apply includes_app_l.
  apply includes_startsWith, startsWith_app.
Qed.

Lemma str_app_assoc (a b c : string) : (a +:+ b) +:+ c = a +:+ b +:+ c.
Proof.
  induction a as [|x a IH]; [reflexivity|].
  change ((String x a +:+ b) +:+ c) with (String x ((a +:+ b) +:+ c)).
  rewrite IH. reflexivity.
Qed.

Lemma str_app_nil_r (a : string) : a +:+ EmptyString = a.
Proof.
  induction a as [|x a IH]; [reflexivity|].
  change (String x a +:+ EmptyString) with (String x (a +:+ EmptyString)).
  rewrite IH. reflexivity.
Qed.






Lemma split_go_nonempty (skip : nat) (inSep : bool) (cur s : string) :
  split_go skip inSep cur s ≠ [].
Proof.
  revert skip inSep cur.
  induction s as [|c s IH]; intros skip inSep cur; cbn [split_go];
    [discriminate|].
  destruct skip; [|apply IH].
  destruct (wsWidth (String c s)); [apply IH|].
  destruct inSep; [apply IH|discriminate].
Qed.

Lemma split_ws_nonempty (s : string) : split_ws s ≠ [].
Proof. apply split_go_nonempty. Qed.

(** ** The store *)

Lemma getUser_store (j : string) (users : gmap string User) :
  (getUser j users).2 =
  match users !! j with Some _ => users | None => <[j := defaultUser j]> users end.
Proof. unfold getUser. destruct (users !! j); reflexivity. Qed.

Lemma getUser_lookup (j : string) (users : gmap string User) :
  (getUser j users).2 !! j = Some (getUser j users).1.
Proof.
  unfold getUser. destruct (users !! j) eqn:E; simpl; [exact E|].
  apply lookup_insert_eq.
Qed.

Lemma getUser_known (j : string) (users : gmap string User) (u : User) :
  users !! j = Some u → getUser j users = (u, users).
Proof. intros E. unfold getUser. rewrite E. reflexivity. Qed.

Lemma getUser_unknown (j : string) (users : gmap string User) :
  users !! j = None →
  getUser j users = (defaultUser j, <[j := defaultUser j]> users).
Proof. intros E. unfold getUser. rewrite E. reflexivity. Qed.

Lemma isProUser_tier (j : string) (users : gmap string User) :
  (isProUser j users).1 = tierIsPro users j.
Proof.
  unfold isProUser, getUser, tierIsPro.
  destruct (users !! j) as [u|]; simpl; [destruct (isPro u)|]; reflexivity.
Qed.

Lemma isProUser_store (j : string) (users : gmap string User) :
  (isProUser j users).2 = (getUser j users).2.
Proof. unfold isProUser. destruct (getUser j users). reflexivity. Qed.

(** ** The payment gate *)

(** C1.  [requirePro] returns [false] and sends nothing if and only if the
    caller is Pro at the time of the call.  When the caller is not Pro it
    calls the socket exactly once, with the payment message, which carries
    the configured payment link; over a socket that delivers that message it
    returns [true] and has sent exactly that one message if and only if the
    caller is not Pro.  So [true] tells the caller to stop and [false] to go
    on.  (A send that the socket rejects is rethrown to the caller.) *)
Theorem requirePro_polarity (h : Host) (sock : Sock) (j : string) (w : World) :
  let pro := (isProUser j (users w)).1 in
  let r := (requirePro h sock j w).1 in
  let w' := (requirePro h sock j w).2 in
  (r = Returned false ∧ sent w' = sent w ↔ pro = true)
  ∧ (sock j (paymentMessage h) = None →
     (r = Returned true ∧ sent w' = sent w ++ [(j, paymentMessage h)]
      ↔ pro = false))
  ∧ (pro = false →
     sent w' = sent w ++ [(j, paymentMessage h)]
     ∧ r = match sock j (paymentMessage h) with
           | None => Returned true
           | Some e => Thrown e
           end)
  ∧ includes (paymentMessage h) (payment_link h) = true.
Proof.
  cbv zeta.
  unfold requirePro, mbind, Async_bind, onStore, sendMessage, mret, Async_ret.
  destruct (isProUser j (users w)) as [pro us]. cbn [fst snd].
  destruct pro; cbn [fst snd sent].
  - split; [split; auto|]. split; [|split; [discriminate|]].
    + intros _. split; [intros [? _]|]; discriminate.
    + apply paymentMessage_link.
  - destruct (sock j (paymentMessage h)) as [e|] eqn:Hsock; cbn [fst snd sent].
    + split; [split; [intros [? _]|]; discriminate|].
      split; [discriminate|]. split; [auto|apply paymentMessage_link].
    + split; [split; [intros [? _]|]; discriminate|].
      split; [split; auto|]. split; [auto|apply paymentMessage_link].
Qed.

Lemma requirePro_polarity_witness :
  openSock "u1" (paymentMessage mailUp) = None
  ∧ (isProUser "u1" (users emptyWorld)).1 = false
  ∧ (requirePro mailUp openSock "u1" emptyWorld).1 = Returned true
  ∧ (requirePro mailUp openSock "u1" (proWorld "u1")).1 = Returned false.
Proof.
  split; [reflexivity|]. split; [reflexivity|]. split.
  - destruct (requirePro_polarity mailUp openSock "u1" emptyWorld)
      as (_ & Hblocked & _).
    apply (Hblocked eq_refl). reflexivity.
  - destruct (requirePro_polarity mailUp openSock "u1" (proWorld "u1"))
      as (Hpass & _).
    apply Hpass. reflexivity.
Defined.

(** ** Upgrading twice *)

(** C2, as the code has it.  Two calls of [upgradeUserToPro] in a row with
    the same non-empty email leave the record Pro with that email both
    times; [upgradedAt] is after each call the time of that call, so the
    second call keeps the first stamp only when the clock has not moved. *)
Theorem upgrade_twice (users : gmap string User) (j mail : string)
    (now1 now2 : Z) :
  mail ≠ EmptyString →
  let first := upgradeUserToPro now1 j (Some mail) users in
  let second := upgradeUserToPro now2 j (Some mail) first.2 in
  isPro first.1 = true ∧ isPro second.1 = true
  ∧ email first.1 = Some mail ∧ email second.1 = Some mail
  ∧ upgradedAt first.1 = Some now1 ∧ upgradedAt second.1 = Some now2
  ∧ second.1 = set_upgradedAt (Some now2) first.1
  ∧ second.2 !! j = Some second.1
  ∧ (upgradedAt second.1 = upgradedAt first.1 ↔ now2 = now1).
Proof.
  intros Hmail. cbv zeta. unfold upgradeUserToPro.
  assert (truthy (Some mail) = true) as ->.
  { unfold truthy. rewrite bool_decide_eq_false_2; done. }
  destruct (getUser j users) as [u us]. cbn [fst snd].
  rewrite (getUser_known j _ _ (lookup_insert_eq us j _)). cbn.
  repeat split; try apply lookup_insert_eq; congruence.
Qed.

Lemma upgrade_twice_witness :
  "a@b.com" ≠ EmptyString
  ∧ upgradedAt (upgradeUserToPro 2000 "u1" (Some "a@b.com")
        (upgradeUserToPro 1000 "u1" (Some "a@b.com") ∅).2).1 = Some 2000.
Proof.
  split; [discriminate|].
  apply (upgrade_twice ∅ "u1" "a@b.com" 1000 2000). discriminate.
Defined.

(** C2, as stated, fails: the second call at a later time replaces the
    time stamp of the first. *)
Lemma upgrade_twice_restamps :
  let first := upgradeUserToPro 1000 "u1" (Some "a@b.com") ∅ in
  let second := upgradeUserToPro 2000 "u1" (Some "a@b.com") first.2 in
  isPro first.1 = true
  ∧ upgradedAt first.1 = Some 1000
  ∧ upgradedAt second.1 = Some 2000
  ∧ upgradedAt second.1 ≠ upgradedAt first.1.
Proof. vm_compute. repeat split; discriminate. Qed.

(** ** Routing and [/activate] *)

Ltac run_async :=
  unfold mbind, Async_bind, mret, Async_ret, onStore, reply, sendMessage,
    callSendMail, log, logged, tryCatch, throw;
  cbn [fst snd users sent mails console].

Lemma route_to (h : Host) (sock : Sock) (now : Z) (j text : string)
    (w : World) (cmd : string) (args : list string) :
  split_ws (trim text) = cmd :: args →
  handleMessage h sock now j text w =
  (let c := toLowerCase cmd in
   if (c =? "/start")%string || (c =? "/help")%string then handleStart sock j
   else if (c =? "/status")%string then handleStatus h sock j
   else if (c =? "/premium")%string then handlePremium h sock j
   else if (c =? "/activate")%string then handleActivate h sock now j args
   else if (c =? "/admin")%string then handleAdmin h sock j
   else mret ()) (logged (commandLine j cmd args) w).
Proof.
  intros Hs. unfold handleMessage. rewrite Hs. reflexivity.
Qed.

Lemma route_activate (h : Host) (sock : Sock) (now : Z) (j text : string)
    (w : World) (cmd : string) (args : list string) :
  split_ws (trim text) = cmd :: args →
  toLowerCase cmd = "/activate" →
  handleMessage h sock now j text w =
  handleActivate h sock now j args (logged (commandLine j cmd args) w).
Proof.
  intros Hs Hc. rewrite (route_to _ _ _ _ _ _ _ _ Hs). cbv zeta. rewrite Hc.
  reflexivity.
Qed.





Lemma tierIsPro_false_getUser (users : gmap string User) (j : string) :
  tierIsPro users j = false → isPro (getUser j users).1 = false.
Proof.
  unfold tierIsPro, getUser. destruct (users !! j); simpl; auto.
Qed.

Lemma handleActivate_free (h : Host) (sock : Sock) (now : Z)
    (j mail : string) (rest : list string) (w : World) :
  invalidEmail (Some mail) = false →
  tierIsPro (users w) j = false →
  sock j (congratulations mail) = None →
  handleActivate h sock now j (mail :: rest) w =
  (Returned (),
   mkWorld (upgradeUserToPro now j (Some mail) (getUser j (users w)).2).2
           (sent w ++ [(j, congratulations mail)])
           (mails w ++ [mkMail mail j])
           (console w ++ emailLines h mail j)).
Proof.
  intros Hvalid Hfree Hsock.
  unfold handleActivate. cbv zeta. cbn [head]. rewrite Hvalid.
  run_async.
  pose proof (tierIsPro_false_getUser _ _ Hfree) as Hu.
  destruct (getUser j (users w)) as [u us] eqn:Eg. cbn [fst snd] in *.
  rewrite Hu. cbn [users].
  destruct (upgradeUserToPro now j (Some mail) us) as [u2 us2].
  cbn [fst snd users sent mails console]. rewrite Hsock.
  unfold sendWelcomeEmail, emailLines. run_async.
  destruct (sendMail h (mkMail mail j)); cbn [fst snd users sent mails console].
  - reflexivity.
  - rewrite <- app_assoc. reflexivity.
Qed.

Lemma upgradeUserToPro_lookup (now : Z) (j : string) (mail : option string)
    (users : gmap string User) :
  (upgradeUserToPro now j mail users).2 !! j
  = Some (upgradeUserToPro now j mail users).1.
Proof.
  unfold upgradeUserToPro. destruct (getUser j users) as [u us].
  cbn [fst snd]. apply lookup_insert_eq.
Qed.

Lemma getUser_other (j j' : string) (users : gmap string User) :
  j' ≠ j → (getUser j users).2 !! j' = users !! j'.
Proof.
  intros Hne. rewrite getUser_store. destruct (users !! j); [reflexivity|].
  apply lookup_insert_ne. congruence.
Qed.

Lemma upgradeUserToPro_other (now : Z) (j j' : string) (mail : option string)
    (users : gmap string User) :
  j' ≠ j → (upgradeUserToPro now j mail users).2 !! j' = users !! j'.
Proof.
  intros Hne. unfold upgradeUserToPro.
  pose proof (getUser_other j j' users Hne) as Hg.
  destruct (getUser j users) as [u us]. cbn [fst snd] in *.
  rewrite lookup_insert_ne by congruence. exact Hg.
Qed.

Lemma upgradeUserToPro_record (now : Z) (j mail : string)
    (users : gmap string User) :
  mail ≠ EmptyString →
  let u := (upgradeUserToPro now j (Some mail) users).1 in
  isPro u = true ∧ email u = Some mail ∧ upgradedAt u = Some now
  ∧ jid u = jid (getUser j users).1.
Proof.
  intros Hmail. cbv zeta. unfold upgradeUserToPro.
  assert (truthy (Some mail) = true) as ->.
  { unfold truthy. rewrite bool_decide_eq_false_2; done. }
  destruct (getUser j users) as [u us]. cbn. auto.
Qed.

(** C4.  For an identity that is Free at the time of the call, routing
    ["/activate user@test.com"] over a socket that delivers the confirmation
    sends exactly that one confirmation, stores a Pro record with the email
    and the time of the call, and calls the mailer exactly once.  The router
    returns normally whatever the mailer answers; a rejection only adds
    lines to the console. *)
Theorem activate_free_identity (h : Host) (sock : Sock) (now : Z)
    (j : string) (w : World) :
  tierIsPro (users w) j = false →
  sock j (congratulations "user@test.com") = None →
  let r := (handleMessage h sock now j "/activate user@test.com" w).1 in
  let w' := (handleMessage h sock now j "/activate user@test.com" w).2 in
  r = Returned ()
  ∧ sent w' = sent w ++ [(j, congratulations "user@test.com")]
  ∧ (∃ u, users w' !! j = Some u ∧ isPro u = true
          ∧ email u = Some "user@test.com" ∧ upgradedAt u = Some now)
  ∧ (∀ j', j' ≠ j → users w' !! j' = users w !! j')
  ∧ mails w' = mails w ++ [mkMail "user@test.com" j]
  ∧ console w' =
      console w ++ commandLine j "/activate" ["user@test.com"]
        :: emailLines h "user@test.com" j.
Proof.
  intros Hfree Hsock. cbv zeta.
  rewrite (route_activate h sock now j "/activate user@test.com" w
             "/activate" ["user@test.com"] eq_refl eq_refl).
  rewrite (handleActivate_free h sock now j "user@test.com" []
             (logged (commandLine j "/activate" ["user@test.com"]) w)
             eq_refl Hfree Hsock).
  cbn [fst snd users sent mails console logged].
  split; [reflexivity|]. split; [reflexivity|]. split.
  { eexists. split; [apply upgradeUserToPro_lookup|].
    destruct (upgradeUserToPro_record now j "user@test.com"
                (getUser j (users w)).2) as (? & ? & ? & _);
      [discriminate|auto]. }
  split.
  { intros j' Hne. rewrite upgradeUserToPro_other by exact Hne.
    apply getUser_other, Hne. }
  split; [reflexivity|].
  rewrite <- app_assoc. reflexivity.
Qed.

Lemma activate_free_identity_witness :
  tierIsPro (users emptyWorld) "u1" = false
  ∧ openSock "u1" (congratulations "user@test.com") = None
  ∧ (handleMessage mailDown openSock 5 "u1" "/activate user@test.com"
       emptyWorld).1 = Returned ()
  ∧ mails (handleMessage mailDown openSock 5 "u1" "/activate user@test.com"
             emptyWorld).2 = [mkMail "user@test.com" "u1"].
Proof.
  split; [reflexivity|]. split; [reflexivity|].
  destruct (activate_free_identity mailDown openSock 5 "u1" emptyWorld
              eq_refl eq_refl) as (Hr & _ & _ & _ & Hm & _).
  split; [exact Hr|exact Hm].
Defined.

Lemma handleActivate_pro (h : Host) (sock : Sock) (now : Z)
    (j mail : string) (rest : list string) (w : World) :
  invalidEmail (Some mail) = false →
  tierIsPro (users w) j = true →
  handleActivate h sock now j (mail :: rest) w =
  (match sock j alreadyPro with None => Returned () | Some e => Thrown e end,
   mkWorld (users w) (sent w ++ [(j, alreadyPro)]) (mails w) (console w)).
Proof.
  intros Hvalid Hpro.
  unfold handleActivate. cbv zeta. cbn [head]. rewrite Hvalid.
  run_async. unfold tierIsPro in Hpro. unfold getUser.
  destruct (users w !! j) as [u|]; [|discriminate].
  cbn [fst snd users sent mails console]. rewrite Hpro.
  destruct (sock j alreadyPro); reflexivity.
Qed.

(** C5.  For an identity that is already Pro, routing
    ["/activate user@test.com"] sends exactly one already-Pro reply; the
    store (tier, email and time stamp of every record) is unchanged and the
    mailer is not called. *)
Theorem activate_already_pro (h : Host) (sock : Sock) (now : Z)
    (j : string) (w : World) :
  tierIsPro (users w) j = true →
  let r := (handleMessage h sock now j "/activate user@test.com" w).1 in
  let w' := (handleMessage h sock now j "/activate user@test.com" w).2 in
  sent w' = sent w ++ [(j, alreadyPro)]
  ∧ users w' = users w
  ∧ mails w' = mails w
  ∧ r = match sock j alreadyPro with None => Returned () | Some e => Thrown e end.
Proof.
  intros Hpro. cbv zeta.
  rewrite (route_activate h sock now j "/activate user@test.com" w
             "/activate" ["user@test.com"] eq_refl eq_refl).
  rewrite (handleActivate_pro h sock now j "user@test.com" []
             (logged (commandLine j "/activate" ["user@test.com"]) w)
             eq_refl Hpro).
  repeat split.
Qed.

Lemma activate_already_pro_witness :
  tierIsPro (users (proWorld "u1")) "u1" = true
  ∧ sent (handleMessage mailUp openSock 5 "u1" "/activate user@test.com"
            (proWorld "u1")).2 = [("u1", alreadyPro)]
  ∧ users (handleMessage mailUp openSock 5 "u1" "/activate user@test.com"
             (proWorld "u1")).2 = users (proWorld "u1").
Proof.
  split; [reflexivity|].
  destruct (activate_already_pro mailUp openSock 5 "u1" (proWorld "u1")
              eq_refl) as (Hs & Hu & _).
  split; [exact Hs|exact Hu].
Defined.

(** ** The gated commands *)

Lemma route_status (h : Host) (sock : Sock) (now : Z) (j : string) (w : World) :
  handleMessage h sock now j "/status" w =
  handleStatus h sock j (logged (commandLine j "/status" []) w).
Proof. reflexivity. Qed.

Lemma route_premium (h : Host) (sock : Sock) (now : Z) (j : string) (w : World) :
  handleMessage h sock now j "/premium" w =
  handlePremium h sock j (logged (commandLine j "/premium" []) w).
Proof. reflexivity. Qed.

Lemma route_admin (h : Host) (sock : Sock) (now : Z) (j : string) (w : World) :
  handleMessage h sock now j "/admin" w =
  handleAdmin h sock j (logged (commandLine j "/admin" []) w).
Proof. reflexivity. Qed.

Lemma requirePro_run (h : Host) (sock : Sock) (j : string) (w : World) :
  requirePro h sock j w =
  if tierIsPro (users w) j
  then (Returned false,
        mkWorld (getUser j (users w)).2 (sent w) (mails w) (console w))
  else (match sock j (paymentMessage h) with
        | None => Returned true
        | Some e => Thrown e
        end,
        mkWorld (getUser j (users w)).2 (sent w ++ [(j, paymentMessage h)])
                (mails w) (console w)).
Proof.
  unfold requirePro. run_async.
  rewrite <- isProUser_tier, <- isProUser_store.
  destruct (isProUser j (users w)) as [[] us]; cbn [fst snd users sent mails console];
    [reflexivity|].
  destruct (sock j (paymentMessage h)); reflexivity.
Qed.

Lemma handlePremium_run (h : Host) (sock : Sock) (j : string) (w : World) :
  handlePremium h sock j w =
  (outcomeOf (sock j (if tierIsPro (users w) j then proZone else paymentMessage h)),
   mkWorld (getUser j (users w)).2
           (sent w ++ [(j, if tierIsPro (users w) j then proZone
                           else paymentMessage h)])
           (mails w) (console w)).
Proof.
  unfold handlePremium. unfold mbind at 1; unfold Async_bind at 1.
  rewrite requirePro_run.
  destruct (tierIsPro (users w) j).
  - run_async. destruct (sock j proZone); reflexivity.
  - destruct (sock j (paymentMessage h)); reflexivity.
Qed.

(** C7, as the code has it.  Routing ["/premium"] never changes a record
    that exists: when the caller has a record the store is unchanged, and
    when the caller has none the gate's lookup inserts the default Free
    record for the caller and nothing else.  The mailer is not called and
    exactly one reply is sent: the pro-zone text for a Pro caller, the
    payment message otherwise. *)
Theorem premium_store_effect (h : Host) (sock : Sock) (now : Z)
    (j : string) (w : World) :
  let w' := (handleMessage h sock now j "/premium" w).2 in
  (is_Some (users w !! j) → users w' = users w)
  ∧ (users w !! j = None → users w' = <[j := defaultUser j]> (users w))
  ∧ (∀ j' u, users w !! j' = Some u → users w' !! j' = Some u)
  ∧ mails w' = mails w
  ∧ sent w' = sent w ++ [(j, if tierIsPro (users w) j then proZone
                             else paymentMessage h)].
Proof.
  cbv zeta. rewrite route_premium, handlePremium_run.
  cbn [fst snd users sent mails console logged].
  rewrite getUser_store.
  split; [|split; [|split; [|split]]]; try reflexivity.
  - intros [u ->]. reflexivity.
  - intros ->. reflexivity.
  - intros j' u Hj'. destruct (users w !! j) eqn:Hj; [exact Hj'|].
    rewrite lookup_insert_ne; [exact Hj'|congruence].
Qed.

Lemma premium_store_effect_witness :
  is_Some (users (proWorld "u1") !! "u1")
  ∧ users (handleMessage mailUp openSock 5 "u1" "/premium" (proWorld "u1")).2
    = users (proWorld "u1").
Proof.
  assert (is_Some (users (proWorld "u1") !! "u1")) as Hsome.
  { eexists. vm_compute. reflexivity. }
  split; [exact Hsome|].
  destruct (premium_store_effect mailUp openSock 5 "u1" (proWorld "u1"))
    as (Hkeep & _).
  exact (Hkeep Hsome).
Defined.

(** C7, as stated, fails: for an identity without a record the gate's
    lookup creates one. *)
Lemma premium_creates_record :
  let w' := (handleMessage mailUp openSock 5 "u1" "/premium" emptyWorld).2 in
  users emptyWorld !! "u1" = None
  ∧ users w' !! "u1" = Some (defaultUser "u1")
  ∧ users w' ≠ users emptyWorld.
Proof.
  cbv zeta. split; [reflexivity|].
  assert (users (handleMessage mailUp openSock 5 "u1" "/premium" emptyWorld).2
            !! "u1" = Some (defaultUser "u1")) as H by (vm_compute; reflexivity).
  split; [exact H|].
  intros E. rewrite E in H. discriminate H.
Qed.

(** ** [/status] and [/admin] *)

Lemma handleStatus_run (h : Host) (sock : Sock) (j : string) (w : World) :
  handleStatus h sock j w =
  (outcomeOf (sock j (statusText h (getUser j (users w)).1)),
   mkWorld (getUser j (users w)).2
           (sent w ++ [(j, statusText h (getUser j (users w)).1)])
           (mails w) (console w)).
Proof.
  unfold handleStatus. run_async.
  destruct (getUser j (users w)) as [u us].
  cbn [fst snd users sent mails console].
  destruct (sock j (statusText h u)); reflexivity.
Qed.

Lemma filter_split_length {A} (P : A → bool) (l : list A) :
  (length (filter (λ x, P x = true) l) + length (filter (λ x, P x = false) l)
   = length l)%nat.
Proof.
  induction l as [|x l IH]; [reflexivity|].
  rewrite !filter_cons. destruct (P x) eqn:E.
  - rewrite decide_True by reflexivity. rewrite decide_False by discriminate.
    simpl. lia.
  - rewrite decide_False by discriminate. rewrite decide_True by reflexivity.
    simpl. lia.
Qed.

Lemma counts_add_up (users : gmap string User) :
  freeCount users + proCount users = totalCount users
  ∧ totalCount users - proCount users = freeCount users.
Proof.
  unfold freeCount, proCount, totalCount.
  pose proof (filter_split_length isPro (listAllUsers users)). lia.
Qed.

Lemma handleAdmin_run (h : Host) (sock : Sock) (j : string) (w : World) :
  handleAdmin h sock j w =
  let text :=
    if tierIsPro (users w) j
    then if (j =? ADMIN_JID h)%string
         then adminPanel (totalCount (getUser j (users w)).2)
                         (proCount (getUser j (users w)).2)
                         (freeCount (getUser j (users w)).2)
         else adminDenied
    else paymentMessage h in
  (outcomeOf (sock j text),
   mkWorld (getUser j (users w)).2 (sent w ++ [(j, text)]) (mails w) (console w)).
Proof.
  unfold handleAdmin. unfold mbind at 1; unfold Async_bind at 1.
  rewrite requirePro_run. cbv zeta.
  destruct (tierIsPro (users w) j).
  - destruct (j =? ADMIN_JID h)%string; cbn [negb].
    + run_async. 
      rewrite <- (proj2 (counts_add_up _)).
      unfold totalCount, proCount.
      match goal with |- context [sock j ?t] => destruct (sock j t) end;
        reflexivity.
    + run_async. destruct (sock j adminDenied); reflexivity.
  - destruct (sock j (paymentMessage h)); reflexivity.
Qed.

Lemma tierIsPro_known (users : gmap string User) (j : string) :
  tierIsPro users j = true → (getUser j users).2 = users.
Proof.
  unfold tierIsPro. rewrite getUser_store.
  destruct (users !! j); [reflexivity|discriminate].
Qed.

Lemma adminDenied_not_stats (total pro free : Z) :
  adminDenied ≠ adminPanel total pro free.
Proof.
  unfold adminDenied, adminPanel. cbn [join].
  intros H. cbv [String.append nl] in H. discriminate H.
Qed.

Lemma paymentMessage_not_stats (h : Host) (total pro free : Z) :
  paymentMessage h ≠ adminPanel total pro free.
Proof.
  unfold paymentMessage, adminPanel. cbn [join].
  intros H. cbv [String.append nl] in H. discriminate H.
Qed.

Lemma listAllUsers_count (Q : User → Prop) `{∀ u, Decision (Q u)}
    (users : gmap string User) :
  length (filter Q (listAllUsers users))
  = size (filter (λ kv : string * User, Q kv.2) users).
Proof.
  induction users as [|k u users Hk IH] using map_ind.
  - rewrite map_filter_empty, map_size_empty. reflexivity.
  - assert (listAllUsers (<[k := u]> users) ≡ₚ u :: listAllUsers users) as ->.
    { unfold listAllUsers. rewrite (map_to_list_insert users k u Hk).
      reflexivity. }
    rewrite filter_cons, map_filter_insert. cbn [snd].
    destruct (decide (Q u)) as [Hq|Hq].
    + rewrite map_size_insert_None.
      * cbn [length]. rewrite IH. reflexivity.
      * rewrite map_lookup_filter_None. left. exact Hk.
    + rewrite delete_id by exact Hk. exact IH.
Qed.

Lemma counts_are_sizes (users : gmap string User) :
  totalCount users = Z.of_nat (size users)
  ∧ proCount users
    = Z.of_nat (size (filter (λ kv : string * User, isPro kv.2 = true) users))
  ∧ freeCount users
    = Z.of_nat (size (filter (λ kv : string * User, isPro kv.2 = false) users)).
Proof.
  unfold totalCount, proCount, freeCount.
  rewrite !listAllUsers_count. unfold listAllUsers.
  rewrite length_fmap, length_map_to_list. auto.
Qed.

Lemma adminPanel_text (total pro free : Z) :
  adminPanel total pro free
  = "🛡️ *Admin Panel*" +:+ nl +:+ nl
    +:+ "👤 Total users tracked: *" +:+ pretty total +:+ "*" +:+ nl
    +:+ "⭐ Pro users:           *" +:+ pretty pro +:+ "*" +:+ nl
    +:+ "🆓 Free users:          *" +:+ pretty free +:+ "*".
Proof.
  unfold adminPanel. cbn [join]. rewrite !str_app_assoc. reflexivity.
Qed.

(** C6.  Routing ["/admin"] runs the Pro gate first: a caller that is not
    Pro gets the payment message.  A Pro caller that is not string-equal to
    the configured administrator gets exactly one access-denied reply, which
    is not a stats reply.  The Pro administrator gets the stats reply: the
    text of the panel with the decimal numbers of the records of the store,
    of its Pro records and of its Free records, and Free plus Pro equals the
    total. *)
Theorem admin_gates (h : Host) (sock : Sock) (now : Z) (j : string) (w : World) :
  let w' := (handleMessage h sock now j "/admin" w).2 in
  let total := Z.of_nat (size (users w)) in
  let pro :=
    Z.of_nat (size (filter (λ kv : string * User, isPro kv.2 = true) (users w))) in
  let free :=
    Z.of_nat (size (filter (λ kv : string * User, isPro kv.2 = false) (users w))) in
  let stats (t p f : Z) :=
    "🛡️ *Admin Panel*" +:+ nl +:+ nl
    +:+ "👤 Total users tracked: *" +:+ pretty t +:+ "*" +:+ nl
    +:+ "⭐ Pro users:           *" +:+ pretty p +:+ "*" +:+ nl
    +:+ "🆓 Free users:          *" +:+ pretty f +:+ "*" in
  (tierIsPro (users w) j = false →
     sent w' = sent w ++ [(j, paymentMessage h)])
  ∧ (tierIsPro (users w) j = true → j ≠ ADMIN_JID h →
     sent w' = sent w ++ [(j, adminDenied)] ∧ users w' = users w
     ∧ adminDenied = "🚫 *Access Denied.* This command is for admins only.")
  ∧ (tierIsPro (users w) j = true → j = ADMIN_JID h →
     sent w' = sent w ++ [(j, adminPanel (totalCount (users w))
                                         (proCount (users w))
                                         (freeCount (users w)))]
     ∧ users w' = users w
     ∧ freeCount (users w) + proCount (users w) = totalCount (users w)
     ∧ sent w' = sent w ++ [(j, stats total pro free)]
     ∧ free + pro = total)
  ∧ (∀ t p f, adminDenied ≠ adminPanel t p f
              ∧ paymentMessage h ≠ adminPanel t p f
              ∧ adminPanel t p f = stats t p f)
  ∧ totalCount (users w) = total
  ∧ proCount (users w) = pro
  ∧ freeCount (users w) = free.
Proof.
  cbv zeta. rewrite route_admin, handleAdmin_run. cbv zeta.
  cbn [fst snd users sent mails console logged].
  destruct (counts_are_sizes (users w)) as (Ht & Hp & Hf).
  split; [|split; [|split; [|split; [|split; [|split]]]]];
    [| | | |exact Ht|exact Hp|exact Hf].
  - intros ->. reflexivity.
  - intros Hpro Hne. rewrite Hpro, (tierIsPro_known _ _ Hpro).
    apply String.eqb_neq in Hne. rewrite Hne. repeat split.
  - intros Hpro He. rewrite Hpro, (tierIsPro_known _ _ Hpro).
    apply String.eqb_eq in He. rewrite He.
    split; [reflexivity|]. split; [reflexivity|].
    split; [apply counts_add_up|].
    split; [rewrite adminPanel_text, Ht, Hp, Hf; reflexivity|].
    rewrite <- Ht, <- Hp, <- Hf. apply counts_add_up.
  - intros t p f.
    split; [apply adminDenied_not_stats|].
    split; [apply paymentMessage_not_stats|apply adminPanel_text].
Qed.

Lemma admin_gates_witness :
  tierIsPro (users (proWorld "15550000000@s.whatsapp.net"))
            "15550000000@s.whatsapp.net" = true
  ∧ "15550000000@s.whatsapp.net" = ADMIN_JID mailUp
  ∧ sent (handleMessage mailUp openSock 5 "15550000000@s.whatsapp.net" "/admin"
            (proWorld "15550000000@s.whatsapp.net")).2
    = [("15550000000@s.whatsapp.net",
        "🛡️ *Admin Panel*" +:+ nl +:+ nl
        +:+ "👤 Total users tracked: *1*" +:+ nl
        +:+ "⭐ Pro users:           *1*" +:+ nl
        +:+ "🆓 Free users:          *0*")]
  ∧ tierIsPro (users (proWorld "u1")) "u1" = true
  ∧ "u1" ≠ ADMIN_JID mailUp
  ∧ sent (handleMessage mailUp openSock 5 "u1" "/admin" (proWorld "u1")).2
    = [("u1", adminDenied)].
Proof.
  split; [reflexivity|]. split; [reflexivity|]. split.
  { destruct (admin_gates mailUp openSock 5 "15550000000@s.whatsapp.net"
                (proWorld "15550000000@s.whatsapp.net"))
      as (_ & _ & Hadmin & _).
    destruct (Hadmin eq_refl eq_refl) as (_ & _ & _ & Hs & _).
    rewrite Hs. vm_compute. reflexivity. }
  split; [reflexivity|].
  assert ("u1" ≠ ADMIN_JID mailUp) as Hne by discriminate.
  split; [exact Hne|].
  destruct (admin_gates mailUp openSock 5 "u1" (proWorld "u1"))
    as (_ & Hdenied & _).
  destruct (Hdenied eq_refl Hne) as (Hs & _). exact Hs.
Defined.

(** ** Unknown commands *)

Lemma eqb_not_known (c : string) :
  c ∉ knownCommands →
  (c =? "/start")%string = false ∧ (c =? "/help")%string = false
  ∧ (c =? "/status")%string = false ∧ (c =? "/premium")%string = false
  ∧ (c =? "/activate")%string = false ∧ (c =? "/admin")%string = false.
Proof.
  intros H. unfold knownCommands in H.
  repeat split; apply String.eqb_neq; intros ->; apply H; set_solver.
Qed.

(** C9.  When the first white-space delimited token of the message,
    lowercased, is none of the six command names, the router returns
    normally, sends no reply, leaves the store unchanged and calls the
    mailer not at all.  This covers empty and blank messages and text
    without the slash. *)
Theorem unknown_command_ignored (h : Host) (sock : Sock) (now : Z)
    (j text : string) (w : World) :
  toLowerCase (firstToken text) ∉ knownCommands →
  let r := (handleMessage h sock now j text w).1 in
  let w' := (handleMessage h sock now j text w).2 in
  r = Returned ()
  ∧ sent w' = sent w
  ∧ users w' = users w
  ∧ mails w' = mails w.
Proof.
  intros Hunk. cbv zeta. unfold firstToken in Hunk.
  destruct (split_ws (trim text)) as [|cmd args] eqn:Hs.
  { exfalso. exact (split_ws_nonempty _ Hs). }
  change (toLowerCase cmd ∉ knownCommands) in Hunk.
  rewrite (route_to _ _ _ _ _ _ _ _ Hs). cbv zeta.
  destruct (eqb_not_known _ Hunk) as (-> & -> & -> & -> & -> & ->).
  repeat split.
Qed.

Lemma unknown_command_ignored_witness :
  (toLowerCase (firstToken "/xyz") ∉ knownCommands)
  ∧ (toLowerCase (firstToken EmptyString) ∉ knownCommands)
  ∧ (toLowerCase (firstToken "   ") ∉ knownCommands)
  ∧ (toLowerCase (firstToken "start now") ∉ knownCommands)
  ∧ sent (handleMessage mailUp openSock 5 "u1" "/xyz" emptyWorld).2 = []
  ∧ users (handleMessage mailUp openSock 5 "u1" "   " emptyWorld).2 = ∅.
Proof.
  assert (∀ t, bool_decide (toLowerCase (firstToken t) ∉ knownCommands) = true
               → toLowerCase (firstToken t) ∉ knownCommands) as D.
  { intros t. apply bool_decide_eq_true_1. }
  split; [apply D; vm_compute; reflexivity|].
  split; [apply D; vm_compute; reflexivity|].
  split; [apply D; vm_compute; reflexivity|].
  split; [apply D; vm_compute; reflexivity|].
  split.
  - apply (unknown_command_ignored mailUp openSock 5 "u1" "/xyz" emptyWorld).
    apply D. vm_compute. reflexivity.
  - apply (unknown_command_ignored mailUp openSock 5 "u1" "   " emptyWorld).
    apply D. vm_compute. reflexivity.
Defined.

(** ** A status check creates the record *)

Lemma listAllUsers_insert_fresh (users : gmap string User) (j : string) (u : User) :
  users !! j = None → listAllUsers (<[j := u]> users) ≡ₚ u :: listAllUsers users.
Proof.
  intros Hj. unfold listAllUsers.
  rewrite (map_to_list_insert users j u Hj). reflexivity.
Qed.

Lemma counts_insert_default (users : gmap string User) (j : string) :
  users !! j = None →
  totalCount (<[j := defaultUser j]> users) = totalCount users + 1
  ∧ proCount (<[j := defaultUser j]> users) = proCount users
  ∧ freeCount (<[j := defaultUser j]> users) = freeCount users + 1.
Proof.
  intros Hj. unfold totalCount, proCount, freeCount.
  rewrite !(listAllUsers_insert_fresh users j _ Hj).
  rewrite !filter_cons. cbn [isPro defaultUser].
  rewrite decide_False by discriminate. rewrite decide_True by reflexivity.
  cbn [length]. lia.
Qed.

(** C10.  For an identity without a record, routing ["/status"] sends
    exactly one reply, the Free tier with no date, and inserts the default
    record (Free, no email, no time stamp) into the store.  The number of
    tracked identities grows by one, and a later ["/admin"] of the Pro
    administrator reports the grown total. *)
Theorem status_creates_record (h : Host) (sock : Sock) (now : Z)
    (j : string) (w : World) :
  users w !! j = None →
  let w' := (handleMessage h sock now j "/status" w).2 in
  sent w' = sent w ++ [(j, "Your current tier: 🆓 *Free*")]
  ∧ users w' = <[j := mkUser j false None None]> (users w)
  ∧ mails w' = mails w
  ∧ totalCount (users w') = totalCount (users w) + 1
  ∧ (∀ (sock' : Sock) (now' : Z) (a : string),
       tierIsPro (users w') a = true → a = ADMIN_JID h →
       sent (handleMessage h sock' now' a "/admin" w').2 =
       sent w' ++ [(a, adminPanel (totalCount (users w) + 1)
                                  (proCount (users w))
                                  (freeCount (users w) + 1))]).
Proof.
  intros Hj. cbv zeta. rewrite route_status, handleStatus_run.
  cbn [fst snd users sent mails console logged].
  rewrite (getUser_unknown j (users w) Hj). cbn [fst snd].
  destruct (counts_insert_default (users w) j Hj) as (Ht & Hp & Hf).
  split; [reflexivity|]. split; [reflexivity|]. split; [reflexivity|].
  split; [exact Ht|].
  intros sock' now' a Hpro Ha.
  rewrite route_admin, handleAdmin_run. cbv zeta.
  cbn [fst snd users sent mails console logged] in *.
  rewrite Hpro, (tierIsPro_known _ _ Hpro).
  apply String.eqb_eq in Ha. rewrite Ha, Ht, Hp, Hf. reflexivity.
Qed.

Lemma status_creates_record_witness :
  users emptyWorld !! "u1" = None
  ∧ users (handleMessage mailUp openSock 5 "u1" "/status" emptyWorld).2
    = <[ "u1" := mkUser "u1" false None None ]> (users emptyWorld)
  ∧ totalCount (users (handleMessage mailUp openSock 5 "u1" "/status"
                         emptyWorld).2)
    = totalCount (users emptyWorld) + 1.
Proof.
  split; [reflexivity|].
  destruct (status_creates_record mailUp openSock 5 "u1" emptyWorld eq_refl)
    as (_ & Hu & _ & Ht & _).
  split; [exact Hu|exact Ht].
Defined.

(** ** The time stamp over the histories of the store *)

Lemma upgradedAtOf_getUser (j' j : string) (users : gmap string User) :
  upgradedAtOf (getUser j' users).2 j = upgradedAtOf users j.
Proof.
  unfold upgradedAtOf. rewrite getUser_store.
  destruct (users !! j') eqn:E; [reflexivity|].
  destruct (decide (j' = j)) as [->|Hne].
  - rewrite lookup_insert_eq, E. reflexivity.
  - rewrite lookup_insert_ne by exact Hne. reflexivity.
Qed.

Lemma upgradedAtOf_call (c : StoreCall) (j : string) (users : gmap string User) :
  upgradedAtOf (call c users) j = callStamp j (upgradedAtOf users j) c.
Proof.
  destruct c as [j'|j'|now j' mail|j'|]; cbn [call callStamp].
  - apply upgradedAtOf_getUser.
  - rewrite isProUser_store. apply upgradedAtOf_getUser.
  - unfold upgradeUserToPro.
    pose proof (upgradedAtOf_getUser j' j users) as Hg.
    destruct (getUser j' users) as [u us]. cbn [fst snd] in *.
    unfold upgradedAtOf in *. destruct (decide (j' = j)) as [->|Hne].
    + rewrite lookup_insert_eq. destruct (truthy mail); reflexivity.
    + rewrite lookup_insert_ne by exact Hne. exact Hg.
  - unfold revokeProAccess.
    pose proof (upgradedAtOf_getUser j' j users) as Hg.
    pose proof (getUser_lookup j' users) as Hl.
    destruct (getUser j' users) as [u us]. cbn [fst snd] in *.
    unfold upgradedAtOf in *. destruct (decide (j' = j)) as [->|Hne].
    + rewrite lookup_insert_eq. rewrite <- Hg, Hl. reflexivity.
    + rewrite lookup_insert_ne by exact Hne. exact Hg.
  - reflexivity.
Qed.

Lemma upgradedAtOf_run (calls : list StoreCall) (j : string)
    (users : gmap string User) :
  upgradedAtOf (run calls users) j = foldl (callStamp j) (upgradedAtOf users j) calls.
Proof.
  revert users. induction calls as [|c calls IH]; intros users; [reflexivity|].
  cbn [run foldl]. fold (run calls (call c users)).
  rewrite IH, upgradedAtOf_call. reflexivity.
Qed.

Lemma upgradedAtOf_seed_from (seeds : list (string * Z)) (j : string)
    (users : gmap string User) :
  upgradedAtOf
    (foldl (λ us '(j', now), <[j' := seededUser j' now]> us) users seeds) j
  = foldl (λ acc '(j', now), if decide (j' = j) then Some now else acc)
          (upgradedAtOf users j) seeds.
Proof.
  revert users. induction seeds as [|[j' now] seeds IH]; intros users;
    [reflexivity|].
  cbn [foldl]. rewrite IH. f_equal.
  unfold upgradedAtOf. destruct (decide (j' = j)) as [->|Hne].
  - rewrite lookup_insert_eq. reflexivity.
  - rewrite lookup_insert_ne by exact Hne. reflexivity.
Qed.

Lemma upgradedAtOf_seed (seeds : list (string * Z)) (j : string) :
  upgradedAtOf (seed seeds) j = seedStamp seeds j.
Proof.
  unfold seed, seedStamp. rewrite upgradedAtOf_seed_from.
  unfold upgradedAtOf. rewrite lookup_empty. reflexivity.
Qed.

Lemma proStamped_insert (users : gmap string User) (j : string) (u : User) :
  proStamped users → (isPro u = true → upgradedAt u ≠ None) →
  proStamped (<[j := u]> users).
Proof.
  intros Hinv Hu j' u' Hl. destruct (decide (j = j')) as [->|Hne].
  - rewrite lookup_insert_eq in Hl. injection Hl as <-. exact Hu.
  - rewrite lookup_insert_ne in Hl by exact Hne. exact (Hinv j' u' Hl).
Qed.

Lemma proStamped_getUser (j : string) (users : gmap string User) :
  proStamped users → proStamped (getUser j users).2.
Proof.
  intros Hinv. rewrite getUser_store. destruct (users !! j); [exact Hinv|].
  apply proStamped_insert; [exact Hinv|discriminate].
Qed.

Lemma proStamped_call (c : StoreCall) (users : gmap string User) :
  proStamped users → proStamped (call c users).
Proof.
  intros Hinv. destruct c as [j|j|now j mail|j|]; cbn [call].
  - apply proStamped_getUser, Hinv.
  - rewrite isProUser_store. apply proStamped_getUser, Hinv.
  - unfold upgradeUserToPro.
    pose proof (proStamped_getUser j users Hinv) as Hg.
    destruct (getUser j users) as [u us]. cbn [fst snd] in *.
    apply proStamped_insert; [exact Hg|].
    intros _. destruct (truthy mail); discriminate.
  - unfold revokeProAccess.
    pose proof (proStamped_getUser j users Hinv) as Hg.
    destruct (getUser j users) as [u us]. cbn [fst snd] in *.
    apply proStamped_insert; [exact Hg|discriminate].
  - exact Hinv.
Qed.

Lemma proStamped_seed (seeds : list (string * Z)) : proStamped (seed seeds).
Proof.
  unfold seed.
  assert (proStamped (∅ : gmap string User)) as H0.
  { intros j u Hl. rewrite lookup_empty in Hl. discriminate. }
  revert H0. generalize (∅ : gmap string User).
  induction seeds as [|[j now] seeds IH]; intros users Hinv; [exact Hinv|].
  cbn [foldl]. apply IH. apply proStamped_insert; [exact Hinv|discriminate].
Qed.

Lemma proStamped_run (calls : list StoreCall) (users : gmap string User) :
  proStamped users → proStamped (run calls users).
Proof.
  revert users. induction calls as [|c calls IH]; intros users Hinv;
    [exact Hinv|].
  cbn [run foldl]. apply IH, proStamped_call, Hinv.
Qed.

(** C8, as the code has it.  In every store reached from seeding by calls
    of [userDb.js], the [upgradedAt] of an identity is the time of the
    latest seeding or [upgradeUserToPro] call that names it, and is [null]
    when there was none; every Pro record has a time stamp; and no call
    other than an upgrade of that identity changes it. *)
Theorem upgradedAt_last_stamp (seeds : list (string * Z))
    (calls : list StoreCall) (j : string) :
  upgradedAtOf (reached seeds calls) j = lastStamp seeds calls j
  ∧ (tierIsPro (reached seeds calls) j = true →
     upgradedAtOf (reached seeds calls) j ≠ None)
  ∧ (∀ c, (∀ now mail, c ≠ CallUpgrade now j mail) →
     upgradedAtOf (call c (reached seeds calls)) j
     = upgradedAtOf (reached seeds calls) j).
Proof.
  split; [|split].
  - unfold reached, lastStamp.
    rewrite upgradedAtOf_run, upgradedAtOf_seed. reflexivity.
  - pose proof (proStamped_run calls _ (proStamped_seed seeds)) as Hinv.
    fold (reached seeds calls) in Hinv.
    unfold tierIsPro, upgradedAtOf.
    destruct (reached seeds calls !! j) as [u|] eqn:E; [|discriminate].
    intros Hpro. exact (Hinv j u E Hpro).
  - intros c Hc. rewrite upgradedAtOf_call.
    destruct c as [| |now j' mail| |]; try reflexivity.
    cbn [callStamp]. destruct (decide (j' = j)) as [->|]; [|reflexivity].
    exfalso. exact (Hc now mail eq_refl).
Qed.

Lemma upgradedAt_last_stamp_witness :
  tierIsPro (reached [("a", 5)] [CallRevoke "a"; CallUpgrade 9 "a" None]) "a"
  = true
  ∧ upgradedAtOf (reached [("a", 5)] [CallRevoke "a"; CallUpgrade 9 "a" None])
                 "a" ≠ None
  ∧ upgradedAtOf (call (CallRevoke "a")
                    (reached [("a", 5)] [CallRevoke "a"; CallUpgrade 9 "a" None]))
                 "a"
    = upgradedAtOf (reached [("a", 5)] [CallRevoke "a"; CallUpgrade 9 "a" None])
                   "a".
Proof.
  assert (tierIsPro (reached [("a", 5)] [CallRevoke "a"; CallUpgrade 9 "a" None])
                    "a" = true) as Hpro by (vm_compute; reflexivity).
  split; [exact Hpro|].
  destruct (upgradedAt_last_stamp [("a", 5)]
              [CallRevoke "a"; CallUpgrade 9 "a" None] "a")
    as (_ & Hstamp & Hframe).
  split; [exact (Hstamp Hpro)|].
  apply Hframe. intros now mail. discriminate.
Defined.

(** C8, as stated, fails: a seeded record has a time stamp though its tier
    never went from Free to Pro, and a second upgrade of a Pro record
    replaces the stamp of the transition. *)
Lemma upgradedAt_without_transition :
  (upgradedAtOf (reached [("a", 5)] []) "a" = Some 5
   ∧ specUpgradedAt [("a", 5)] [] "a" = None
   ∧ upgradedAtOf (reached [("a", 5)] []) "a" ≠ specUpgradedAt [("a", 5)] [] "a")
  ∧ (upgradedAtOf (reached [] [CallUpgrade 1000 "u1" None;
                               CallUpgrade 2000 "u1" None]) "u1" = Some 2000
     ∧ specUpgradedAt [] [CallUpgrade 1000 "u1" None;
                          CallUpgrade 2000 "u1" None] "u1" = Some 1000
     ∧ upgradedAtOf (reached [] [CallUpgrade 1000 "u1" None;
                                 CallUpgrade 2000 "u1" None]) "u1"
       ≠ specUpgradedAt [] [CallUpgrade 1000 "u1" None;
                            CallUpgrade 2000 "u1" None] "u1").
Proof. vm_compute. repeat split; discriminate. Qed.

(** ** The router moves the store by calls of its interface *)

Lemma handleStart_run (sock : Sock) (j : string) (w : World) :
  handleStart sock j w =
  (outcomeOf (sock j menu),
   mkWorld (users w) (sent w ++ [(j, menu)]) (mails w) (console w)).
Proof.
  unfold handleStart. run_async. destruct (sock j menu); reflexivity.
Qed.

Lemma handleActivate_store (h : Host) (sock : Sock) (now : Z) (j : string)
    (args : list string) (w : World) :
  ∃ calls, users (handleActivate h sock now j args w).2 = run calls (users w).
Proof.
  unfold handleActivate. cbv zeta.
  destruct (invalidEmail (head args)).
  { exists []. run_async. destruct (sock j usageError); reflexivity. }
  destruct (head args) as [mail|].
  2:{ exists []. run_async. destruct (sock j usageError); reflexivity. }
  run_async. destruct (getUser j (users w)) as [u us] eqn:Eg.
  cbn [fst snd users sent mails console].
  destruct (isPro u).
  { exists [CallGetUser j]. cbn [run foldl call]. rewrite Eg.
    destruct (sock j alreadyPro); reflexivity. }
  exists [CallGetUser j; CallUpgrade now j (Some mail)].
  cbn [run foldl call]. rewrite Eg.
  cbn [fst snd users sent mails console].
  destruct (upgradeUserToPro now j (Some mail) us) as [u2 us2].
  cbn [fst snd users sent mails console].
  destruct (sock j (congratulations mail)); [reflexivity|].
  unfold sendWelcomeEmail. run_async.
  destruct (sendMail h (mkMail mail j)); reflexivity.
Qed.

(** Whatever is routed, the store moves by calls of its public interface. *)
Lemma router_store_history (h : Host) (sock : Sock) (now : Z) (j text : string)
    (w : World) :
  ∃ calls, users (handleMessage h sock now j text w).2 = run calls (users w).
Proof.
  destruct (split_ws (trim text)) as [|cmd args] eqn:Hs.
  { exfalso. exact (split_ws_nonempty _ Hs). }
  rewrite (route_to _ _ _ _ _ _ _ _ Hs). cbv zeta.
  destruct (_ || _).
  { exists []. rewrite handleStart_run. reflexivity. }
  destruct (_ =? "/status")%string.
  { exists [CallGetUser j]. rewrite handleStatus_run. reflexivity. }
  destruct (_ =? "/premium")%string.
  { exists [CallIsProUser j]. rewrite handlePremium_run.
    cbn [run foldl call]. rewrite isProUser_store. reflexivity. }
  destruct (_ =? "/activate")%string.
  { destruct (handleActivate_store h sock now j args
                (logged (commandLine j cmd args) w)) as [calls Hc].
    exists calls. exact Hc. }
  destruct (_ =? "/admin")%string.
  { exists [CallIsProUser j]. rewrite handleAdmin_run.
    cbn [run foldl call]. rewrite isProUser_store. reflexivity. }
  exists []. reflexivity.
Qed.

(** ** A socket that rejects *)

(** The rejection of the payment message comes back to the caller of the
    gate, after the one call of the socket. *)
Example rejected_payment_message_is_rethrown :
  requirePro mailUp deadSock "u1" emptyWorld
  = (Thrown "Connection Closed",
     mkWorld {[ "u1" := defaultUser "u1" ]}
             [("u1", paymentMessage mailUp)] [] []).
Proof. vm_compute. reflexivity. Qed.

(** When the confirmation of an upgrade is rejected the record is already
    Pro and the welcome email is never started. *)
Example rejected_confirmation_skips_email :
  let out := handleMessage mailUp deadSock 5 "u1" "/activate user@test.com"
               emptyWorld in
  out.1 = Thrown "Connection Closed"
  ∧ users out.2 !! "u1" = Some (mkUser "u1" true (Some "user@test.com") (Some 5))
  ∧ mails out.2 = [].
Proof. vm_compute. repeat split. Qed.

(** * Further properties *)

Import WelcomeEmail Index Notions.

(** ** The store of [userDb.js] *)

(** X1.  [getUser] never fails and finds what it created: a second lookup
    returns the same record and leaves the store as the first left it; the
    record is stored under the JID; no other record is touched; an unknown
    JID gets the default record and a known one its record, with the store
    unchanged. *)
Theorem getUser_twice (j : string) (users : gmap string User) :
  let first := getUser j users in
  getUser j first.2 = first
  ∧ first.2 !! j = Some first.1
  ∧ (∀ j', j' ≠ j → first.2 !! j' = users !! j')
  ∧ (users !! j = None → first.1 = defaultUser j)
  ∧ (∀ u, users !! j = Some u → first = (u, users)).
Proof.
  cbv zeta. split; [|split; [|split; [|split]]].
  - pose proof (getUser_lookup j users) as Hl.
    destruct (getUser j users) as [u us]. cbn [fst snd] in *.
    apply getUser_known, Hl.
  - apply getUser_lookup.
  - intros j' Hne. apply getUser_other, Hne.
  - intros Hn. rewrite (getUser_unknown _ _ Hn). reflexivity.
  - intros u Hu. apply getUser_known, Hu.
Qed.

Lemma getUser_twice_witness :
  users emptyWorld !! "u1" = None
  ∧ (getUser "u1" (users emptyWorld)).1 = defaultUser "u1"
  ∧ getUser "u1" (getUser "u1" (users emptyWorld)).2
    = getUser "u1" (users emptyWorld).
Proof.
  split; [reflexivity|].
  destruct (getUser_twice "u1" (users emptyWorld)) as (Hsame & _ & _ & Hnew & _).
  split; [exact (Hnew eq_refl)|exact Hsame].
Defined.

Lemma revokeProAccess_lookup (j : string) (users : gmap string User) :
  (revokeProAccess j users).2 !! j = Some (revokeProAccess j users).1.
Proof.
  unfold revokeProAccess. destruct (getUser j users) as [u us].
  cbn [fst snd]. apply lookup_insert_eq.
Qed.

Lemma revokeProAccess_other (j j' : string) (users : gmap string User) :
  j' ≠ j → (revokeProAccess j users).2 !! j' = users !! j'.
Proof.
  intros Hne. unfold revokeProAccess.
  pose proof (getUser_other j j' users Hne) as Hg.
  destruct (getUser j users) as [u us]. cbn [fst snd] in *.
  rewrite lookup_insert_ne by congruence. exact Hg.
Qed.

Lemma revokeProAccess_record (j : string) (users : gmap string User) :
  (revokeProAccess j users).1 = set_isPro false (getUser j users).1.
Proof.
  unfold revokeProAccess. destruct (getUser j users) as [u us]. reflexivity.
Qed.

(** X2.  [revokeProAccess] makes the record Free and keeps its email and
    its time stamp; no other record is touched; afterwards [isProUser] is
    false and a second revoke changes nothing. *)
Theorem revoke_keeps_history (j : string) (users : gmap string User) :
  let before := (getUser j users).1 in
  let after := revokeProAccess j users in
  isPro after.1 = false
  ∧ email after.1 = email before
  ∧ upgradedAt after.1 = upgradedAt before
  ∧ after.2 !! j = Some after.1
  ∧ (∀ j', j' ≠ j → after.2 !! j' = users !! j')
  ∧ (isProUser j after.2).1 = false
  ∧ (revokeProAccess j after.2).2 = after.2.
Proof.
  cbv zeta. rewrite revokeProAccess_record.
  split; [reflexivity|]. split; [reflexivity|]. split; [reflexivity|].
  split; [rewrite <- revokeProAccess_record; apply revokeProAccess_lookup|].
  split; [intros j' Hne; apply revokeProAccess_other, Hne|].
  pose proof (revokeProAccess_lookup j users) as Hl.
  rewrite revokeProAccess_record in Hl.
  split.
  - rewrite isProUser_tier. unfold tierIsPro. rewrite Hl. reflexivity.
  - unfold revokeProAccess at 1.
    rewrite (getUser_known _ _ _ Hl). cbn [fst snd].
    apply insert_id. exact Hl.
Qed.

Lemma revoke_keeps_history_witness :
  "u2" ≠ "u1"
  ∧ (revokeProAccess "u1" (users (proWorld "u2"))).2 !! "u2"
    = users (proWorld "u2") !! "u2"
  ∧ upgradedAt (revokeProAccess "u1" (users (proWorld "u1"))).1 = Some 7.
Proof.
  assert ("u2" ≠ "u1") as Hne by discriminate.
  split; [exact Hne|].
  destruct (revoke_keeps_history "u1" (users (proWorld "u2")))
    as (_ & _ & _ & _ & Hother & _).
  split; [exact (Hother "u2" Hne)|].
  destruct (revoke_keeps_history "u1" (users (proWorld "u1")))
    as (_ & _ & Hstamp & _).
  rewrite Hstamp. vm_compute. reflexivity.
Defined.

(** X3.  [upgradeUserToPro] called without an email (or with the empty
    string) makes the record Pro and stamps it, and keeps the email the
    record had; no other record is touched. *)
Theorem upgrade_without_email (now : Z) (j : string) (mail : option string)
    (users : gmap string User) :
  truthy mail = false →
  let before := (getUser j users).1 in
  let after := upgradeUserToPro now j mail users in
  isPro after.1 = true
  ∧ upgradedAt after.1 = Some now
  ∧ email after.1 = email before
  ∧ after.2 !! j = Some after.1
  ∧ (∀ j', j' ≠ j → after.2 !! j' = users !! j').
Proof.
  intros Hm. cbv zeta.
  split; [|split; [|split; [|split]]].
  4: apply upgradeUserToPro_lookup.
  4: intros j' Hne; apply upgradeUserToPro_other, Hne.
  all: unfold upgradeUserToPro; rewrite Hm;
    destruct (getUser j users) as [u us]; reflexivity.
Qed.

Lemma upgrade_without_email_witness :
  truthy None = false
  ∧ email (upgradeUserToPro 9 "u1" None (users (proWorld "u1"))).1
    = Some "old@mail.org".
Proof.
  split; [reflexivity|].
  destruct (upgrade_without_email 9 "u1" None (users (proWorld "u1")) eq_refl)
    as (_ & _ & He & _).
  rewrite He. vm_compute. reflexivity.
Defined.

(** ** Seeding *)

Lemma seed_snoc (seeds : list (string * Z)) (j : string) (now : Z) :
  seed (seeds ++ [(j, now)]) = <[j := seededUser j now]> (seed seeds).
Proof. unfold seed. rewrite foldl_app. reflexivity. Qed.

Lemma seedStamp_snoc (seeds : list (string * Z)) (j' j : string) (now : Z) :
  seedStamp (seeds ++ [(j', now)]) j
  = if decide (j' = j) then Some now else seedStamp seeds j.
Proof. unfold seedStamp. rewrite foldl_app. reflexivity. Qed.

Lemma seed_lookup (seeds : list (string * Z)) (j : string) :
  seed seeds !! j = seededUser j <$> seedStamp seeds j.
Proof.
  induction seeds as [|[j' now] seeds IH] using rev_ind.
  - unfold seed. cbn [foldl]. rewrite lookup_empty. reflexivity.
  - rewrite seed_snoc, seedStamp_snoc.
    destruct (decide (j' = j)) as [->|Hne].
    + rewrite lookup_insert_eq. reflexivity.
    + rewrite lookup_insert_ne by exact Hne. exact IH.
Qed.

Lemma seedStamp_None (seeds : list (string * Z)) (j : string) :
  seedStamp seeds j = None ↔ j ∉ seeds.*1.
Proof.
  induction seeds as [|[j' now] seeds IH] using rev_ind.
  - split; [intros _; apply not_elem_of_nil|reflexivity].
  - rewrite seedStamp_snoc, fmap_app, not_elem_of_app. cbn [fmap list_fmap fst].
    destruct (decide (j' = j)) as [->|Hne].
    + split; [discriminate|]. intros [_ H]. exfalso. apply H.
      apply list_elem_of_here.
    + rewrite IH. split; [|tauto]. intros H. split; [exact H|].
      intros Hin. apply list_elem_of_singleton in Hin. congruence.
Qed.

Lemma seedStamp_Some (seeds : list (string * Z)) (j : string) (now : Z) :
  seedStamp seeds j = Some now → (j, now) ∈ seeds.
Proof.
  induction seeds as [|[j' now'] seeds IH] using rev_ind; [discriminate|].
  rewrite seedStamp_snoc. destruct (decide (j' = j)) as [->|Hne].
  - intros [= ->]. apply elem_of_app. right. apply list_elem_of_here.
  - intros H. apply IH in H. apply elem_of_app. left. exact H.
Qed.

Lemma seedStamp_last (seeds : list (string * Z)) (j : string) (now : Z) :
  seedStamp seeds j = Some now →
  ∃ before after, seeds = before ++ (j, now) :: after ∧ (j ∉ after.*1).
Proof.
  induction seeds as [|[j' now'] seeds IH] using rev_ind; [discriminate|].
  rewrite seedStamp_snoc. destruct (decide (j' = j)) as [->|Hne].
  - intros [= ->]. exists seeds, []. split; [reflexivity|apply not_elem_of_nil].
  - intros H. destruct (IH H) as (before & after & -> & Hout).
    exists before, (after ++ [(j', now')]). split.
    + rewrite <- app_assoc. reflexivity.
    + rewrite fmap_app, not_elem_of_app. split; [exact Hout|].
      intros Hin. apply list_elem_of_singleton in Hin. cbn in Hin. congruence.
Qed.

(** X4.  After the seeding loop every configured JID has a Pro record
    without email, stamped with the clock of the last iteration that names
    it, and [isProUser] confirms it without changing the store; a JID that
    is not configured has no record and is not Pro. *)
Theorem seed_makes_pro (seeds : list (string * Z)) (j : string) :
  (j ∈ seeds.*1 →
     ∃ before now after,
       seeds = before ++ (j, now) :: after
       ∧ (j ∉ after.*1)
       ∧ seed seeds !! j = Some (mkUser j true None (Some now))
       ∧ isProUser j (seed seeds) = (true, seed seeds))
  ∧ (j ∉ seeds.*1 →
     seed seeds !! j = None ∧ (isProUser j (seed seeds)).1 = false).
Proof.
  split.
  - intros Hin. destruct (seedStamp seeds j) as [now|] eqn:E.
    + destruct (seedStamp_last _ _ _ E) as (before & after & Hs & Hout).
      exists before, now, after. split; [exact Hs|]. split; [exact Hout|].
      assert (seed seeds !! j = Some (mkUser j true None (Some now))) as Hl.
      { rewrite seed_lookup, E. reflexivity. }
      split; [exact Hl|].
      unfold isProUser. rewrite (getUser_known _ _ _ Hl). reflexivity.
    + apply seedStamp_None in E. contradiction.
  - intros Hout. apply seedStamp_None in Hout.
    assert (seed seeds !! j = None) as Hl.
    { rewrite seed_lookup, Hout. reflexivity. }
    split; [exact Hl|].
    rewrite isProUser_tier. unfold tierIsPro. rewrite Hl. reflexivity.
Qed.

Lemma seed_makes_pro_witness :
  "a" ∈ [("a", 1); ("b", 2); ("a", 3)].*1
  ∧ seed [("a", 1); ("b", 2); ("a", 3)] !! "a"
    = Some (mkUser "a" true None (Some 3)).
Proof.
  assert ("a" ∈ [("a", 1); ("b", 2); ("a", 3)].*1) as Hin
    by (cbn; apply list_elem_of_here).
  split; [exact Hin|].
  destruct (seed_makes_pro [("a", 1); ("b", 2); ("a", 3)] "a") as (Hpro & _).
  destruct (Hpro Hin) as (before & now & after & _ & _ & Hl & _).
  rewrite Hl. f_equal. f_equal.
  assert (Some (mkUser "a" true None (Some now))
          = Some (mkUser "a" true None (Some 3))) as He.
  { rewrite <- Hl. vm_compute. reflexivity. }
  injection He as ->. reflexivity.
Defined.

(** ** Keys and records *)

Lemma keyed_insert (users : gmap string User) (j : string) (u : User) :
  keyed users → jid u = j → keyed (<[j := u]> users).
Proof.
  intros Hinv Hu k u' Hl. destruct (decide (j = k)) as [->|Hne].
  - rewrite lookup_insert_eq in Hl. injection Hl as <-. exact Hu.
  - rewrite lookup_insert_ne in Hl by exact Hne. exact (Hinv k u' Hl).
Qed.

Lemma keyed_getUser (j : string) (users : gmap string User) :
  keyed users → keyed (getUser j users).2 ∧ jid (getUser j users).1 = j.
Proof.
  intros Hinv. unfold getUser. destruct (users !! j) as [u|] eqn:E; cbn [fst snd].
  - split; [exact Hinv|exact (Hinv j u E)].
  - split; [apply keyed_insert; [exact Hinv|reflexivity]|reflexivity].
Qed.

Lemma keyed_call (c : StoreCall) (users : gmap string User) :
  keyed users → keyed (call c users).
Proof.
  intros Hinv. destruct c as [j|j|now j mail|j|]; cbn [call].
  - apply keyed_getUser, Hinv.
  - rewrite isProUser_store. apply keyed_getUser, Hinv.
  - unfold upgradeUserToPro.
    destruct (keyed_getUser j users Hinv) as [Hg Hj].
    destruct (getUser j users) as [u us]. cbn [fst snd] in *.
    apply keyed_insert; [exact Hg|]. destruct (truthy mail); exact Hj.
  - unfold revokeProAccess.
    destruct (keyed_getUser j users Hinv) as [Hg Hj].
    destruct (getUser j users) as [u us]. cbn [fst snd] in *.
    apply keyed_insert; [exact Hg|exact Hj].
  - exact Hinv.
Qed.

Lemma keyed_seed (seeds : list (string * Z)) : keyed (seed seeds).
Proof.
  intros k u Hl. rewrite seed_lookup in Hl.
  destruct (seedStamp seeds k); [|discriminate].
  injection Hl as <-. reflexivity.
Qed.

Lemma keyed_run (calls : list StoreCall) (users : gmap string User) :
  keyed users → keyed (run calls users).
Proof.
  revert users. induction calls as [|c calls IH]; intros users Hinv;
    [exact Hinv|].
  cbn [run foldl]. apply IH, keyed_call, Hinv.
Qed.

(** X5.  In every store reached from seeding by calls of [userDb.js], the
    [jid] field of a record is the key it is stored under. *)
Theorem record_jid_is_its_key (seeds : list (string * Z))
    (calls : list StoreCall) (k : string) (u : User) :
  reached seeds calls !! k = Some u → jid u = k.
Proof. apply (keyed_run calls _ (keyed_seed seeds)). Qed.

Lemma record_jid_is_its_key_witness :
  reached [("a", 1)] [CallRevoke "b"] !! "b" = Some (mkUser "b" false None None)
  ∧ jid (mkUser "b" false None None) = "b".
Proof.
  assert (reached [("a", 1)] [CallRevoke "b"] !! "b"
          = Some (mkUser "b" false None None)) as Hl by (vm_compute; reflexivity).
  split; [exact Hl|].
  exact (record_jid_is_its_key [("a", 1)] [CallRevoke "b"] "b" _ Hl).
Defined.

(** ** Records are never deleted *)

Lemma getUser_keeps (j k : string) (users : gmap string User) :
  is_Some (users !! k) → is_Some ((getUser j users).2 !! k).
Proof.
  intros Hk. destruct (decide (k = j)) as [->|Hne].
  - rewrite getUser_lookup. eauto.
  - rewrite getUser_other by exact Hne. exact Hk.
Qed.

Lemma call_keeps (c : StoreCall) (k : string) (users : gmap string User) :
  is_Some (users !! k) → is_Some (call c users !! k).
Proof.
  intros Hk. destruct c as [j|j|now j mail|j|]; cbn [call].
  - apply getUser_keeps, Hk.
  - rewrite isProUser_store. apply getUser_keeps, Hk.
  - destruct (decide (k = j)) as [->|Hne].
    + rewrite upgradeUserToPro_lookup. eauto.
    + rewrite upgradeUserToPro_other by exact Hne. exact Hk.
  - destruct (decide (k = j)) as [->|Hne].
    + rewrite revokeProAccess_lookup. eauto.
    + rewrite revokeProAccess_other by exact Hne. exact Hk.
  - exact Hk.
Qed.

Lemma run_keeps (calls : list StoreCall) (k : string) (users : gmap string User) :
  is_Some (users !! k) → is_Some (run calls users !! k).
Proof.
  revert users. induction calls as [|c calls IH]; intros users Hk; [exact Hk|].
  cbn [run foldl]. apply IH, call_keeps, Hk.
Qed.

(** X6.  No call of [userDb.js] and no routed message removes a record:
    a JID that has a record keeps having one. *)
Theorem records_never_deleted (h : Host) (sock : Sock) (now : Z)
    (j text : string) (w : World) (calls : list StoreCall) (k : string) :
  is_Some (users w !! k) →
  is_Some (run calls (users w) !! k)
  ∧ is_Some (users (handleMessage h sock now j text w).2 !! k).
Proof.
  intros Hk. split; [apply run_keeps, Hk|].
  destruct (router_store_history h sock now j text w) as [cs ->].
  apply run_keeps, Hk.
Qed.

Lemma records_never_deleted_witness :
  is_Some (users (proWorld "u1") !! "u1")
  ∧ is_Some (run [CallRevoke "u1"; CallGetUser "u2"] (users (proWorld "u1"))
               !! "u1").
Proof.
  assert (is_Some (users (proWorld "u1") !! "u1")) as Hk.
  { eexists. vm_compute. reflexivity. }
  split; [exact Hk|].
  destruct (records_never_deleted mailUp openSock 5 "u1" "/status"
              (proWorld "u1") [CallRevoke "u1"; CallGetUser "u2"] "u1" Hk)
    as (Hrun & _).
  exact Hrun.
Defined.

(** ** The remaining runs of [/activate] *)

Lemma handleActivate_invalid (h : Host) (sock : Sock) (now : Z) (j : string)
    (args : list string) (w : World) :
  invalidEmail (head args) = true →
  handleActivate h sock now j args w =
  (outcomeOf (sock j usageError),
   mkWorld (users w) (sent w ++ [(j, usageError)]) (mails w) (console w)).
Proof.
  intros Hbad. unfold handleActivate. cbv zeta. rewrite Hbad. run_async.
  destruct (sock j usageError); reflexivity.
Qed.

Lemma handleActivate_free_rejected (h : Host) (sock : Sock) (now : Z)
    (j mail : string) (rest : list string) (w : World) (e : Error) :
  invalidEmail (Some mail) = false →
  tierIsPro (users w) j = false →
  sock j (congratulations mail) = Some e →
  handleActivate h sock now j (mail :: rest) w =
  (Thrown e,
   mkWorld (upgradeUserToPro now j (Some mail) (getUser j (users w)).2).2
           (sent w ++ [(j, congratulations mail)])
           (mails w) (console w)).
Proof.
  intros Hvalid Hfree Hsock.
  unfold handleActivate. cbv zeta. cbn [head]. rewrite Hvalid.
  run_async.
  pose proof (tierIsPro_false_getUser _ _ Hfree) as Hu.
  destruct (getUser j (users w)) as [u us] eqn:Eg. cbn [fst snd] in *.
  rewrite Hu. cbn [users].
  destruct (upgradeUserToPro now j (Some mail) us) as [u2 us2].
  cbn [fst snd users sent mails console]. rewrite Hsock. reflexivity.
Qed.

Lemma invalidEmail_head_false (args : list string) :
  invalidEmail (head args) = false →
  ∃ mail rest, args = mail :: rest ∧ invalidEmail (Some mail) = false.
Proof.
  destruct args as [|mail rest]; [discriminate|]. intros H. eauto.
Qed.

Lemma tierIsPro_upgraded (now : Z) (j : string) (mail : option string)
    (users : gmap string User) :
  tierIsPro (upgradeUserToPro now j mail users).2 j = true.
Proof.
  unfold tierIsPro. rewrite upgradeUserToPro_lookup.
  unfold upgradeUserToPro. destruct (getUser j users) as [u us].
  cbn [fst]. destruct (truthy mail); reflexivity.
Qed.

Lemma tierIsPro_getUser (j j' : string) (users : gmap string User) :
  tierIsPro (getUser j users).2 j' = tierIsPro users j'.
Proof.
  unfold tierIsPro. rewrite getUser_store.
  destruct (users !! j) eqn:E; [reflexivity|].
  destruct (decide (j = j')) as [->|Hne].
  - rewrite lookup_insert_eq, E. reflexivity.
  - rewrite lookup_insert_ne by exact Hne. reflexivity.
Qed.

(** ** What a routed message can and cannot do *)

(** What one routed message can do: at most one reply, to the sender; the
    store moves by a lookup of the sender or by an upgrade of a Free sender;
    the mailer is called only together with such an upgrade. *)
Lemma router_effect (h : Host) (sock : Sock) (now : Z) (j text : string)
    (w : World) :
  let w' := (handleMessage h sock now j text w).2 in
  (sent w' = sent w ∨ ∃ t, sent w' = sent w ++ [(j, t)])
  ∧ (((users w' = users w ∨ users w' = (getUser j (users w)).2)
      ∧ mails w' = mails w)
     ∨ (tierIsPro (users w) j = false
        ∧ toLowerCase (firstToken text) = "/activate"
        ∧ ∃ mail,
            users w' = (upgradeUserToPro now j (Some mail)
                          (getUser j (users w)).2).2
            ∧ (mails w' = mails w ∨ mails w' = mails w ++ [mkMail mail j]))).
Proof.
  cbv zeta.
  destruct (split_ws (trim text)) as [|cmd args] eqn:Hs.
  { exfalso. exact (split_ws_nonempty _ Hs). }
  rewrite (route_to _ _ _ _ _ _ _ _ Hs). cbv zeta.
  set (w0 := logged (commandLine j cmd args) w).
  destruct (_ || _).
  { rewrite handleStart_run. cbn. split; [right; eauto|]. left. auto. }
  destruct (_ =? "/status")%string.
  { rewrite handleStatus_run. cbn. split; [right; eauto|]. left. auto. }
  destruct (_ =? "/premium")%string.
  { rewrite handlePremium_run. cbn. split; [right; eauto|]. left. auto. }
  destruct (_ =? "/activate")%string eqn:Hact.
  { apply String.eqb_eq in Hact.
    assert (toLowerCase (firstToken text) = "/activate") as Hcmd.
    { unfold firstToken. rewrite Hs. exact Hact. }
    destruct (invalidEmail (head args)) eqn:Hv.
    { rewrite (handleActivate_invalid _ _ _ _ _ _ Hv). cbn.
      split; [right; eauto|]. left. auto. }
    destruct (invalidEmail_head_false _ Hv) as (mail & rest & -> & Hm).
    destruct (tierIsPro (users w) j) eqn:Ht.
    { rewrite (handleActivate_pro h sock now j mail rest w0 Hm Ht). cbn.
      split; [right; eauto|]. left. auto. }
    destruct (sock j (congratulations mail)) as [e|] eqn:Hk.
    - rewrite (handleActivate_free_rejected h sock now j mail rest w0 e Hm Ht Hk).
      cbn. split; [right; eauto|]. right. split; [reflexivity|].
      split; [exact Hcmd|]. exists mail. auto.
    - rewrite (handleActivate_free h sock now j mail rest w0 Hm Ht Hk).
      cbn. split; [right; eauto|]. right. split; [reflexivity|].
      split; [exact Hcmd|]. exists mail. auto. }
  destruct (_ =? "/admin")%string.
  { rewrite handleAdmin_run. cbn. split; [right; eauto|]. left. auto. }
  cbn. split; [left; reflexivity|]. left. auto.
Qed.

(** X7.  A routed message leaves the record of every identity other than
    the sender as it was, and makes no Pro identity Free. *)
Theorem router_touches_only_the_sender (h : Host) (sock : Sock) (now : Z)
    (j text : string) (w : World) (j' : string) :
  let w' := (handleMessage h sock now j text w).2 in
  (j' ≠ j → users w' !! j' = users w !! j')
  ∧ (tierIsPro (users w) j' = true → tierIsPro (users w') j' = true).
Proof.
  cbv zeta.
  destruct (router_effect h sock now j text w)
    as (_ & [[[-> | ->] _] | (Hfree & _ & mail & -> & _)]).
  - split; auto.
  - split; [intros Hne; apply getUser_other, Hne|].
    rewrite tierIsPro_getUser. auto.
  - split.
    + intros Hne. rewrite upgradeUserToPro_other by exact Hne.
      apply getUser_other, Hne.
    + intros Hpro. destruct (decide (j' = j)) as [->|Hne].
      * apply tierIsPro_upgraded.
      * unfold tierIsPro in *.
        rewrite upgradeUserToPro_other, getUser_other by exact Hne. exact Hpro.
Qed.

(** X8.  A routed message calls the socket at most once, and only with
    the sender as recipient. *)
Theorem router_replies_at_most_once (h : Host) (sock : Sock) (now : Z)
    (j text : string) (w : World) :
  let w' := (handleMessage h sock now j text w).2 in
  sent w' = sent w ∨ ∃ t, sent w' = sent w ++ [(j, t)].
Proof. apply router_effect. Qed.

(** X9.  A routed message calls the mailer at most once, and when it does
    the sender was Free before and is Pro after the message. *)
Theorem mail_only_on_upgrade (h : Host) (sock : Sock) (now : Z)
    (j text : string) (w : World) :
  let w' := (handleMessage h sock now j text w).2 in
  mails w' = mails w
  ∨ (∃ mail, mails w' = mails w ++ [mkMail mail j])
    ∧ tierIsPro (users w) j = false
    ∧ tierIsPro (users w') j = true.
Proof.
  cbv zeta.
  destruct (router_effect h sock now j text w)
    as (_ & [[_ Hm] | (Hfree & _ & mail & Hu & [Hm | Hm])]); auto.
  right. split; [eauto|]. split; [exact Hfree|].
  rewrite Hu. apply tierIsPro_upgraded.
Qed.

Lemma router_touches_only_the_sender_witness :
  "u2" ≠ "u1"
  ∧ users (handleMessage mailUp openSock 5 "u1" "/activate a@b.com"
             (proWorld "u2")).2 !! "u2" = users (proWorld "u2") !! "u2".
Proof.
  assert ("u2" ≠ "u1") as Hne by discriminate.
  split; [exact Hne|].
  destruct (router_touches_only_the_sender mailUp openSock 5 "u1"
              "/activate a@b.com" (proWorld "u2") "u2") as (Hother & _).
  exact (Hother Hne).
Defined.

(** X10.  When a routed message changes the tier of an identity, that
    identity is the sender, the command is [/activate], and the change is
    from Free to Pro. *)
Theorem tier_changes_only_by_activate (h : Host) (sock : Sock) (now : Z)
    (j text : string) (w : World) (j' : string) :
  let w' := (handleMessage h sock now j text w).2 in
  tierIsPro (users w') j' ≠ tierIsPro (users w) j' →
  j' = j
  ∧ toLowerCase (firstToken text) = "/activate"
  ∧ tierIsPro (users w) j = false
  ∧ tierIsPro (users w') j = true.
Proof.
  cbv zeta. intros Hch.
  destruct (router_effect h sock now j text w)
    as (_ & [[[Hu | Hu] _] | (Hfree & Hcmd & mail & Hu & _)]).
  - rewrite Hu in Hch. contradiction.
  - rewrite Hu, tierIsPro_getUser in Hch. contradiction.
  - destruct (decide (j' = j)) as [->|Hne].
    + split; [reflexivity|]. split; [exact Hcmd|]. split; [exact Hfree|].
      rewrite Hu. apply tierIsPro_upgraded.
    + exfalso. apply Hch. rewrite Hu. unfold tierIsPro.
      rewrite upgradeUserToPro_other, getUser_other by exact Hne. reflexivity.
Qed.

Lemma tier_changes_only_by_activate_witness :
  tierIsPro (users (handleMessage mailUp openSock 5 "u1" "/activate a@b.com"
                      emptyWorld).2) "u1"
  ≠ tierIsPro (users emptyWorld) "u1"
  ∧ toLowerCase (firstToken "/activate a@b.com") = "/activate".
Proof.
  assert (tierIsPro (users (handleMessage mailUp openSock 5 "u1"
                              "/activate a@b.com" emptyWorld).2) "u1"
          ≠ tierIsPro (users emptyWorld) "u1") as Hch.
  { vm_compute. discriminate. }
  split; [exact Hch|].
  destruct (tier_changes_only_by_activate mailUp openSock 5 "u1"
              "/activate a@b.com" emptyWorld "u1" Hch) as (_ & Hcmd & _).
  exact Hcmd.
Defined.

Lemma reply_outcome (sock : Sock) (j t : string) (w W : World) :
  sent W = sent w ++ [(j, t)] →
  outcomeOf (sock j t) = Returned ()
  ∨ ∃ t' e, outcomeOf (sock j t) = Thrown e
            ∧ sent W = sent w ++ [(j, t')] ∧ sock j t' = Some e.
Proof.
  intros Hs. destruct (sock j t) as [e|] eqn:E; [|left; reflexivity].
  right. exists t, e. auto.
Qed.

(** A routed message ends in a throw only when the socket rejected the one
    reply. *)
Lemma router_outcome (h : Host) (sock : Sock) (now : Z) (j text : string)
    (w : World) :
  let out := handleMessage h sock now j text w in
  out.1 = Returned ()
  ∨ ∃ t e, out.1 = Thrown e ∧ sent out.2 = sent w ++ [(j, t)]
           ∧ sock j t = Some e.
Proof.
  cbv zeta.
  destruct (split_ws (trim text)) as [|cmd args] eqn:Hs.
  { exfalso. exact (split_ws_nonempty _ Hs). }
  rewrite (route_to _ _ _ _ _ _ _ _ Hs). cbv zeta.
  set (w0 := logged (commandLine j cmd args) w).
  destruct (_ || _).
  { rewrite handleStart_run. apply (reply_outcome sock j menu w). reflexivity. }
  destruct (_ =? "/status")%string.
  { rewrite handleStatus_run. apply (reply_outcome sock j _ w). reflexivity. }
  destruct (_ =? "/premium")%string.
  { rewrite handlePremium_run. apply (reply_outcome sock j _ w). reflexivity. }
  destruct (_ =? "/activate")%string.
  { destruct (invalidEmail (head args)) eqn:Hv.
    { rewrite (handleActivate_invalid _ _ _ _ _ _ Hv).
      apply (reply_outcome sock j usageError w). reflexivity. }
    destruct (invalidEmail_head_false _ Hv) as (mail & rest & -> & Hm).
    destruct (tierIsPro (users w) j) eqn:Ht.
    { rewrite (handleActivate_pro h sock now j mail rest w0 Hm Ht).
      apply (reply_outcome sock j alreadyPro w). reflexivity. }
    destruct (sock j (congratulations mail)) as [e|] eqn:Hk.
    - rewrite (handleActivate_free_rejected h sock now j mail rest w0 e Hm Ht Hk).
      right. exists (congratulations mail), e. auto.
    - rewrite (handleActivate_free h sock now j mail rest w0 Hm Ht Hk).
      left. reflexivity. }
  destruct (_ =? "/admin")%string.
  { rewrite handleAdmin_run. cbv zeta.
    apply (reply_outcome sock j _ w). reflexivity. }
  left. reflexivity.
Qed.

(** X11.  [handleMessage] throws only the error with which the socket
    rejected its reply, after that one call of the socket; over a socket
    that delivers to the sender it returns normally. *)
Theorem router_throws_only_on_rejected_reply (h : Host) (sock : Sock)
    (now : Z) (j text : string) (w : World) :
  let out := handleMessage h sock now j text w in
  (∀ e, out.1 = Thrown e →
     ∃ t, sent out.2 = sent w ++ [(j, t)] ∧ sock j t = Some e)
  ∧ ((∀ t, sock j t = None) → out.1 = Returned ()).
Proof.
  cbv zeta. destruct (router_outcome h sock now j text w)
    as [Hr | (t & e & Hr & Hs & Hk)].
  - split; [|auto]. intros e He. rewrite Hr in He. discriminate.
  - split.
    + intros e' He. rewrite Hr in He. injection He as <-. eauto.
    + intros Hall. rewrite Hall in Hk. discriminate.
Qed.

Lemma router_throws_only_on_rejected_reply_witness :
  (∀ t, openSock "u1" t = None)
  ∧ (handleMessage mailDown openSock 5 "u1" "/activate a@b.com" emptyWorld).1
    = Returned ().
Proof.
  assert (∀ t, openSock "u1" t = None) as Hall by reflexivity.
  split; [exact Hall|].
  destruct (router_throws_only_on_rejected_reply mailDown openSock 5 "u1"
              "/activate a@b.com" emptyWorld) as (_ & Hok).
  exact (Hok Hall).
Defined.

(** ** [/start], [/help] and [/status] *)

Lemma firstToken_split (text cmd : string) (args : list string) :
  split_ws (trim text) = cmd :: args → firstToken text = cmd.
Proof. intros Hs. unfold firstToken. rewrite Hs. reflexivity. Qed.

Lemma split_cases (text : string) :
  ∃ cmd args, split_ws (trim text) = cmd :: args ∧ firstToken text = cmd.
Proof.
  destruct (split_ws (trim text)) as [|cmd args] eqn:Hs.
  { exfalso. exact (split_ws_nonempty _ Hs). }
  exists cmd, args. split; [reflexivity|]. apply firstToken_split with args, Hs.
Qed.

(** X12.  Whatever the case of the command and whatever follows it,
    [/start] and [/help] send the menu and nothing else: the store is
    unchanged and the mailer is not called. *)
Theorem start_and_help_send_menu (h : Host) (sock : Sock) (now : Z)
    (j text : string) (w : World) :
  toLowerCase (firstToken text) = "/start"
  ∨ toLowerCase (firstToken text) = "/help" →
  let out := handleMessage h sock now j text w in
  out.1 = outcomeOf (sock j menu)
  ∧ sent out.2 = sent w ++ [(j, menu)]
  ∧ users out.2 = users w
  ∧ mails out.2 = mails w.
Proof.
  intros Hc. cbv zeta.
  destruct (split_cases text) as (cmd & args & Hs & Hf). rewrite Hf in Hc.
  rewrite (route_to _ _ _ _ _ _ _ _ Hs). cbv zeta.
  assert (((toLowerCase cmd =? "/start")%string
           || (toLowerCase cmd =? "/help")%string) = true) as ->.
  { destruct Hc as [-> | ->]; reflexivity. }
  rewrite handleStart_run. repeat split.
Qed.

Lemma start_and_help_send_menu_witness :
  (toLowerCase (firstToken "  /HeLp me  ") = "/start"
   ∨ toLowerCase (firstToken "  /HeLp me  ") = "/help")
  ∧ sent (handleMessage mailUp openSock 5 "u1" "  /HeLp me  " emptyWorld).2
    = [("u1", menu)].
Proof.
  assert (toLowerCase (firstToken "  /HeLp me  ") = "/start"
          ∨ toLowerCase (firstToken "  /HeLp me  ") = "/help") as Hc
    by (right; reflexivity).
  split; [exact Hc|].
  destruct (start_and_help_send_menu mailUp openSock 5 "u1" "  /HeLp me  "
              emptyWorld Hc) as (_ & Hs & _).
  exact Hs.
Defined.

(** X13.  [/status] of an identity that has a record replies with the
    tier of that record, followed by the Pro-since line exactly when the
    record has a time stamp (also when the record is Free again), and
    leaves the store unchanged. *)
Theorem status_of_known_identity (h : Host) (sock : Sock) (now : Z)
    (j text : string) (w : World) (u : User) :
  toLowerCase (firstToken text) = "/status" →
  users w !! j = Some u →
  let out := handleMessage h sock now j text w in
  out.1 = outcomeOf (sock j (statusText h u))
  ∧ sent out.2 = sent w ++ [(j, statusText h u)]
  ∧ users out.2 = users w
  ∧ mails out.2 = mails w
  ∧ (upgradedAt u = None →
     statusText h u = "Your current tier: "
                      +:+ (if isPro u then "⭐ *Pro*" else "🆓 *Free*"))
  ∧ (∀ d, upgradedAt u = Some d →
     statusText h u = "Your current tier: "
                      +:+ (if isPro u then "⭐ *Pro*" else "🆓 *Free*")
                      +:+ nl +:+ "_Pro since: " +:+ toDateString h d +:+ "_").
Proof.
  intros Hc Hu. cbv zeta.
  destruct (split_cases text) as (cmd & args & Hs & Hf). rewrite Hf in Hc.
  rewrite (route_to _ _ _ _ _ _ _ _ Hs). cbv zeta. rewrite Hc.
  change (("/status" =? "/start")%string || ("/status" =? "/help")%string)
    with false.
  change ("/status" =? "/status")%string with true. cbv iota.
  rewrite handleStatus_run.
  cbn [fst snd users sent mails console logged].
  rewrite (getUser_known _ _ _ Hu). cbn [fst snd].
  split; [reflexivity|]. split; [reflexivity|]. split; [reflexivity|].
  split; [reflexivity|]. unfold statusText. split.
  - intros ->. cbv zeta. destruct (isPro u); reflexivity.
  - intros d ->. reflexivity.
Qed.

Lemma status_of_known_identity_witness :
  toLowerCase (firstToken "/STATUS") = "/status"
  ∧ users (proWorld "u1") !! "u1"
    = Some (mkUser "u1" true (Some "old@mail.org") (Some 7))
  ∧ users (handleMessage mailUp openSock 5 "u1" "/STATUS" (proWorld "u1")).2
    = users (proWorld "u1").
Proof.
  assert (users (proWorld "u1") !! "u1"
          = Some (mkUser "u1" true (Some "old@mail.org") (Some 7))) as Hu
    by (vm_compute; reflexivity).
  split; [reflexivity|]. split; [exact Hu|].
  destruct (status_of_known_identity mailUp openSock 5 "u1" "/STATUS"
              (proWorld "u1") _ eq_refl Hu) as (_ & _ & Hs & _).
  exact Hs.
Defined.

(** ** Activating twice *)

Lemma handleActivate_free_store (h : Host) (sock : Sock) (now : Z)
    (j mail : string) (rest : list string) (w : World) :
  invalidEmail (Some mail) = false →
  tierIsPro (users w) j = false →
  users (handleActivate h sock now j (mail :: rest) w).2
  = (upgradeUserToPro now j (Some mail) (getUser j (users w)).2).2.
Proof.
  intros Hm Ht. destruct (sock j (congratulations mail)) as [e|] eqn:Hk.
  - rewrite (handleActivate_free_rejected h sock now j mail rest w e Hm Ht Hk).
    reflexivity.
  - rewrite (handleActivate_free h sock now j mail rest w Hm Ht Hk).
    reflexivity.
Qed.

Lemma invalidEmail_nonempty (mail : string) :
  invalidEmail (Some mail) = false → mail ≠ EmptyString.
Proof. intros H ->. discriminate H. Qed.

(** X14.  After an [/activate] of a Free identity, a second [/activate]
    with any valid email at any later time gets the already-Pro reply and
    changes nothing: the record keeps the email and the time stamp of the
    first, and the mailer is not called again. *)
Theorem second_activate_is_ignored (h : Host) (sock : Sock) (now1 now2 : Z)
    (j text1 text2 mail1 mail2 : string) (w : World) :
  activateRequest text1 mail1 →
  activateRequest text2 mail2 →
  tierIsPro (users w) j = false →
  let w1 := (handleMessage h sock now1 j text1 w).2 in
  let out := handleMessage h sock now2 j text2 w1 in
  users out.2 = users w1
  ∧ sent out.2 = sent w1 ++ [(j, alreadyPro)]
  ∧ mails out.2 = mails w1
  ∧ ∃ u, users out.2 !! j = Some u ∧ isPro u = true
         ∧ email u = Some mail1 ∧ upgradedAt u = Some now1.
Proof.
  intros (cmd1 & rest1 & Hs1 & Hc1 & Hm1) (cmd2 & rest2 & Hs2 & Hc2 & Hm2) Hfree.
  cbv zeta.
  assert (users (handleMessage h sock now1 j text1 w).2
          = (upgradeUserToPro now1 j (Some mail1) (getUser j (users w)).2).2)
    as Hw1.
  { rewrite (route_activate _ _ _ _ _ _ _ _ Hs1 Hc1).
    apply (handleActivate_free_store h sock now1 j mail1 rest1
             (logged (commandLine j cmd1 (mail1 :: rest1)) w) Hm1 Hfree). }
  assert (tierIsPro (users (handleMessage h sock now1 j text1 w).2) j = true)
    as Hpro by (rewrite Hw1; apply tierIsPro_upgraded).
  rewrite (route_activate _ _ _ _ _ _ _ _ Hs2 Hc2).
  rewrite (handleActivate_pro h sock now2 j mail2 rest2
             (logged (commandLine j cmd2 (mail2 :: rest2))
                     (handleMessage h sock now1 j text1 w).2) Hm2 Hpro).
  cbn [fst snd users sent mails console logged].
  split; [reflexivity|]. split; [reflexivity|]. split; [reflexivity|].
  rewrite Hw1. eexists. split; [apply upgradeUserToPro_lookup|].
  destruct (upgradeUserToPro_record now1 j mail1 (getUser j (users w)).2
              (invalidEmail_nonempty _ Hm1)) as (? & ? & ? & _).
  auto.
Qed.

Lemma second_activate_is_ignored_witness :
  activateRequest "/activate a@b.com" "a@b.com"
  ∧ activateRequest "/ACTIVATE c@d.org now" "c@d.org"
  ∧ tierIsPro (users emptyWorld) "u1" = false
  ∧ users (handleMessage mailUp openSock 9 "u1" "/ACTIVATE c@d.org now"
             (handleMessage mailUp openSock 5 "u1" "/activate a@b.com"
                emptyWorld).2).2
    = users (handleMessage mailUp openSock 5 "u1" "/activate a@b.com"
               emptyWorld).2.
Proof.
  assert (activateRequest "/activate a@b.com" "a@b.com") as H1.
  { exists "/activate", []. repeat split. }
  assert (activateRequest "/ACTIVATE c@d.org now" "c@d.org") as H2.
  { exists "/ACTIVATE", ["now"]. repeat split. }
  split; [exact H1|]. split; [exact H2|]. split; [reflexivity|].
  destruct (second_activate_is_ignored mailUp openSock 5 9 "u1"
              "/activate a@b.com" "/ACTIVATE c@d.org now" "a@b.com" "c@d.org"
              emptyWorld H1 H2 eq_refl) as (Hu & _).
  exact Hu.
Defined.

(** ** The welcome email *)

(** X15.  [sendWelcomeEmail] calls the mailer exactly once and touches
    neither the store nor the socket; when the mailer resolves it logs one
    line and returns the message id, when the mailer rejects it logs one
    line and rethrows the same error. *)
Theorem sendWelcomeEmail_outcome (h : Host) (toEmail j : string) (w : World) :
  let out := sendWelcomeEmail h toEmail j w in
  users out.2 = users w
  ∧ sent out.2 = sent w
  ∧ mails out.2 = mails w ++ [mkMail toEmail j]
  ∧ (∀ messageId, sendMail h (mkMail toEmail j) = MailSent messageId →
       out.1 = Returned messageId
       ∧ console out.2 = console w ++
           ["[Email] Welcome email sent to " +:+ toEmail +:+ " (msgId: "
              +:+ messageId +:+ ")"])
  ∧ (∀ err, sendMail h (mkMail toEmail j) = MailRejected err →
       out.1 = Thrown err
       ∧ console out.2 = console w ++
           ["[Email] Failed to send welcome email to " +:+ toEmail +:+ ": "
              +:+ err]).
Proof.
  cbv zeta. unfold sendWelcomeEmail. run_async.
  destruct (sendMail h (mkMail toEmail j)) as [mid|e];
    cbn [fst snd users sent mails console].
  - split; [reflexivity|]. split; [reflexivity|]. split; [reflexivity|].
    split; [|discriminate]. intros ? [= <-]. split; reflexivity.
  - split; [reflexivity|]. split; [reflexivity|]. split; [reflexivity|].
    split; [discriminate|]. intros ? [= <-]. split; reflexivity.
Qed.

Lemma sendWelcomeEmail_outcome_witness :
  sendMail mailDown (mkMail "a@b.com" "u1") = MailRejected "smtp down"
  ∧ (sendWelcomeEmail mailDown "a@b.com" "u1" emptyWorld).1 = Thrown "smtp down".
Proof.
  split; [reflexivity|].
  destruct (sendWelcomeEmail_outcome mailDown "a@b.com" "u1" emptyWorld)
    as (_ & _ & _ & _ & Hrej).
  destruct (Hrej "smtp down" eq_refl) as (Hr & _). exact Hr.
Defined.

(** ** The phone number in the welcome email *)

Lemma removeFirst_absent (pattern s : string) :
  includes s pattern = false → removeFirst pattern s = s.
Proof.
  induction s as [|c s IH]; intros H.
  - cbn [includes] in H. apply orb_false_iff in H as [H _].
    cbn [removeFirst]. rewrite H. reflexivity.
  - cbn [includes] in H. apply orb_false_iff in H as [H1 H2].
    cbn [removeFirst]. rewrite H1, (IH H2). reflexivity.
Qed.

Lemma dropChars_app (p s : string) : dropChars (String.length p) (p +:+ s) = s.
Proof.
  induction p as [|c p IH]; [reflexivity|].
  change (String c p +:+ s) with (String c (p +:+ s)). exact IH.
Qed.

Lemma removeFirst_here (pattern s : string) :
  removeFirst pattern (pattern +:+ s) = s.
Proof.
  destruct (pattern +:+ s) as [|c r] eqn:E.
  - cbn [removeFirst]. rewrite <- E at 1. rewrite startsWith_app.
    rewrite <- E. apply dropChars_app.
  - cbn [removeFirst]. rewrite <- E at 1. rewrite startsWith_app.
    rewrite <- E. apply dropChars_app.
Qed.

Lemma removeFirst_suffix (phone rest : string) :
  noAtSign phone →
  displayPhone (phone +:+ "@s.whatsapp.net" +:+ rest) = phone +:+ rest.
Proof.
  unfold noAtSign, displayPhone. induction phone as [|c phone IH]; intros Hno.
  - apply (removeFirst_here "@s.whatsapp.net" rest).
  - change (String c phone +:+ "@s.whatsapp.net" +:+ rest)
      with (String c (phone +:+ "@s.whatsapp.net" +:+ rest)).
    change (String c phone +:+ rest) with (String c (phone +:+ rest)).
    cbn [includes] in Hno. apply orb_false_iff in Hno as [Hc Hno].
    cbn [removeFirst].
    assert (startsWith "@s.whatsapp.net"
              (String c (phone +:+ "@s.whatsapp.net" +:+ rest)) = false) as ->.
    { cbn [startsWith] in *. destruct (decide ("@"%char = c)); [discriminate|].
      reflexivity. }
    rewrite (IH Hno). reflexivity.
Qed.

(** X16.  The phone number shown in the welcome email is the JID without
    its first ["@s.whatsapp.net"]: a number without at-sign followed by the
    suffix gives the number, and a JID that does not contain the suffix is
    shown as it is. *)
Theorem displayPhone_strips_suffix (phone rest j : string) :
  (noAtSign phone →
     displayPhone (phone +:+ "@s.whatsapp.net" +:+ rest) = phone +:+ rest)
  ∧ (includes j "@s.whatsapp.net" = false → displayPhone j = j).
Proof.
  split; [apply removeFirst_suffix|apply removeFirst_absent].
Qed.

Lemma displayPhone_strips_suffix_witness :
  noAtSign "15551234567"
  ∧ displayPhone "15551234567@s.whatsapp.net" = "15551234567"
  ∧ includes "1203630@g.us" "@s.whatsapp.net" = false
  ∧ displayPhone "1203630@g.us" = "1203630@g.us".
Proof.
  assert (noAtSign "15551234567") as Hno by reflexivity.
  split; [exact Hno|].
  destruct (displayPhone_strips_suffix "15551234567" EmptyString "1203630@g.us")
    as (Hstrip & Hkeep).
  split; [exact (Hstrip Hno)|]. split; [reflexivity|]. exact (Hkeep eq_refl).
Defined.

(** ** The listener of incoming messages *)

Lemma upsertLoop_skip (h : Host) (sock : Sock) (entry : Z * WAMessage)
    (rest : list (Z * WAMessage)) :
  fromOthers entry = false →
  upsertLoop h sock (entry :: rest) = upsertLoop h sock rest.
Proof.
  destruct entry as [now msg]. unfold fromOthers. cbn [snd upsertLoop].
  destruct (fromMe (key msg)); [reflexivity|]. cbn [negb andb].
  intros ->. reflexivity.
Qed.

Lemma fromOthers_sender (entry : Z * WAMessage) :
  fromOthers entry = true →
  fromMe (key entry.2) = false
  ∧ ∃ sender, remoteJid (key entry.2) = Some sender
              ∧ truthy (Some sender) = true.
Proof.
  unfold fromOthers. intros H. apply andb_true_iff in H as [H1 H2].
  split; [destruct (fromMe _); [discriminate|reflexivity]|].
  destruct (remoteJid _) as [s|]; [|discriminate]. eauto.
Qed.

Lemma upsertLoop_stop (h : Host) (sock : Sock) (now : Z) (msg : WAMessage)
    (rest : list (Z * WAMessage)) :
  fromOthers (now, msg) = true →
  startsWith "/" (textOf msg) = false →
  upsertLoop h sock ((now, msg) :: rest) = mret ().
Proof.
  intros Ho Ht. destruct (fromOthers_sender _ Ho) as (Hme & sender & Hs & Htr).
  cbn [snd] in *. cbn [upsertLoop]. rewrite Hme, Hs, Htr. cbn [negb].
  cbv zeta. rewrite Ht. reflexivity.
Qed.

Lemma upsertLoop_command (h : Host) (sock : Sock) (now : Z) (msg : WAMessage)
    (rest : list (Z * WAMessage)) (sender : string) (w : World) :
  fromOthers (now, msg) = true →
  remoteJid (key msg) = Some sender →
  startsWith "/" (textOf msg) = true →
  upsertLoop h sock ((now, msg) :: rest) w =
  match handleMessage h sock now sender (textOf msg) w with
  | (Returned _, w1) => upsertLoop h sock rest w1
  | (Thrown e, w1) => upsertLoop h sock rest (afterCatch sender e w1)
  end.
Proof.
  intros Ho Hs Ht. destruct (fromOthers_sender _ Ho) as (Hme & s' & Hs' & Htr).
  cbn [snd] in *. rewrite Hs in Hs'. injection Hs' as <-.
  cbn [upsertLoop]. rewrite Hme, Hs, Htr. cbn [negb]. cbv zeta. rewrite Ht.
  cbn [negb]. unfold mbind at 1; unfold Async_bind at 1.
  unfold tryCatch at 1.
  destruct (handleMessage h sock now sender (textOf msg) w) as [[[]|e] w1];
    [reflexivity|].
  run_async. unfold afterCatch.
  destruct (sock sender internalError); reflexivity.
Qed.

(** X17.  The listener of incoming messages never throws, whatever the
    socket and the mailer do; for a type other than ["notify"] it does
    nothing at all. *)
Theorem listener_never_throws (h : Host) (sock : Sock) (type : string)
    (messages : list (Z * WAMessage)) (w : World) :
  (onMessagesUpsert h sock type messages w).1 = Returned ()
  ∧ (type ≠ "notify" →
     onMessagesUpsert h sock type messages w = (Returned (), w)).
Proof.
  split.
  - unfold onMessagesUpsert. destruct (type =? "notify")%string; [|reflexivity].
    cbn [negb]. revert w.
    induction messages as [|[now msg] rest IH]; intros w; [reflexivity|].
    destruct (fromOthers (now, msg)) eqn:Ho.
    2:{ rewrite (upsertLoop_skip _ _ _ _ Ho). apply IH. }
    destruct (startsWith "/" (textOf msg)) eqn:Ht.
    2:{ rewrite (upsertLoop_stop _ _ _ _ _ Ho Ht). reflexivity. }
    destruct (fromOthers_sender _ Ho) as (_ & sender & Hs & _). cbn [snd] in Hs.
    rewrite (upsertLoop_command _ _ _ _ _ _ _ Ho Hs Ht).
    destruct (handleMessage h sock now sender (textOf msg) w) as [[[]|e] w1];
      apply IH.
  - intros Hne. unfold onMessagesUpsert.
    apply String.eqb_neq in Hne. rewrite Hne. reflexivity.
Qed.

Lemma listener_never_throws_witness :
  "append" ≠ "notify"
  ∧ onMessagesUpsert mailDown deadSock "append"
      [(1, mkMessage (mkKey false (Some "a"))
                     (Some (mkContent (Some "/start") None)))] emptyWorld
    = (Returned (), emptyWorld)
  ∧ (onMessagesUpsert mailDown deadSock "notify"
       [(1, mkMessage (mkKey false (Some "a"))
                      (Some (mkContent (Some "/start") None)))] emptyWorld).1
    = Returned ().
Proof.
  assert ("append" ≠ "notify") as Hne by discriminate.
  split; [exact Hne|]. split.
  - destruct (listener_never_throws mailDown deadSock "append"
                [(1, mkMessage (mkKey false (Some "a"))
                               (Some (mkContent (Some "/start") None)))]
                emptyWorld) as (_ & Hskip).
    exact (Hskip Hne).
  - destruct (listener_never_throws mailDown deadSock "notify"
                [(1, mkMessage (mkKey false (Some "a"))
                               (Some (mkContent (Some "/start") None)))]
                emptyWorld) as (Hret & _).
    exact Hret.
Defined.

(** X18.  Messages sent by the bot itself and messages without sender
    have no effect: the loop does what it does on the batch without them. *)
Theorem listener_skips_own_and_anonymous (h : Host) (sock : Sock)
    (messages : list (Z * WAMessage)) (w : World) :
  upsertLoop h sock messages w
  = upsertLoop h sock (filter (λ entry, fromOthers entry = true) messages) w.
Proof.
  revert w. induction messages as [|[now msg] rest IH]; intros w; [reflexivity|].
  rewrite filter_cons. destruct (fromOthers (now, msg)) eqn:Ho.
  - rewrite decide_True by reflexivity.
    destruct (startsWith "/" (textOf msg)) eqn:Ht.
    + destruct (fromOthers_sender _ Ho) as (_ & sender & Hs & _).
      cbn [snd] in Hs.
      rewrite !(upsertLoop_command _ _ _ _ _ _ _ Ho Hs Ht).
      destruct (handleMessage h sock now sender (textOf msg) w)
        as [[[]|e] w1]; apply IH.
    + rewrite !(upsertLoop_stop _ _ _ _ _ Ho Ht). reflexivity.
  - rewrite decide_False by discriminate.
    rewrite (upsertLoop_skip _ _ _ _ Ho). apply IH.
Qed.

(** X19.  A message of another sender whose text does not start with a
    slash ends the loop: the messages after it in the batch are not
    handled. *)
Theorem listener_stops_at_plain_text (h : Host) (sock : Sock) (now : Z)
    (msg : WAMessage) (before after : list (Z * WAMessage)) (w : World) :
  fromOthers (now, msg) = true →
  startsWith "/" (textOf msg) = false →
  upsertLoop h sock (before ++ (now, msg) :: after) w
  = upsertLoop h sock before w.
Proof.
  intros Ho Ht. revert w.
  induction before as [|[now' msg'] before IH]; intros w.
  - cbn [app]. rewrite (upsertLoop_stop _ _ _ _ _ Ho Ht). reflexivity.
  - cbn [app]. destruct (fromOthers (now', msg')) eqn:Ho'.
    2:{ rewrite !(upsertLoop_skip _ _ _ _ Ho'). apply IH. }
    destruct (startsWith "/" (textOf msg')) eqn:Ht'.
    2:{ rewrite !(upsertLoop_stop _ _ _ _ _ Ho' Ht'). reflexivity. }
    destruct (fromOthers_sender _ Ho') as (_ & sender & Hs & _).
    cbn [snd] in Hs.
    rewrite !(upsertLoop_command _ _ _ _ _ _ _ Ho' Hs Ht').
    destruct (handleMessage h sock now' sender (textOf msg') w)
      as [[[]|e] w1]; apply IH.
Qed.

(** X20.  When the handling of a command throws, the listener logs the
    error, calls the socket once more with the internal-error notice for
    the sender, leaves the store as the handler left it, and goes on with
    the rest of the batch. *)
Theorem listener_reports_failure (h : Host) (sock : Sock) (now : Z)
    (msg : WAMessage) (rest : list (Z * WAMessage)) (sender : string)
    (w w1 : World) (e : Error) :
  fromOthers (now, msg) = true →
  remoteJid (key msg) = Some sender →
  startsWith "/" (textOf msg) = true →
  handleMessage h sock now sender (textOf msg) w = (Thrown e, w1) →
  upsertLoop h sock ((now, msg) :: rest) w
  = upsertLoop h sock rest (afterCatch sender e w1)
  ∧ sent (afterCatch sender e w1) = sent w1 ++ [(sender, internalError)]
  ∧ users (afterCatch sender e w1) = users w1.
Proof.
  intros Ho Hs Ht Hm. rewrite (upsertLoop_command _ _ _ _ _ _ _ Ho Hs Ht), Hm.
  repeat split.
Qed.

Lemma listener_stops_at_plain_text_witness :
  fromOthers (3, mkMessage (mkKey false (Some "c"))
                           (Some (mkContent (Some "hello") None))) = true
  ∧ startsWith "/" (textOf (mkMessage (mkKey false (Some "c"))
                              (Some (mkContent (Some "hello") None)))) = false
  ∧ upsertLoop mailUp openSock
      ([] ++ (3, mkMessage (mkKey false (Some "c"))
                           (Some (mkContent (Some "hello") None)))
          :: [(4, mkMessage (mkKey false (Some "d"))
                            (Some (mkContent (Some "/status") None)))])
      emptyWorld
    = upsertLoop mailUp openSock [] emptyWorld.
Proof.
  split; [reflexivity|]. split; [reflexivity|].
  apply (listener_stops_at_plain_text mailUp openSock 3 _ [] _ emptyWorld);
    reflexivity.
Defined.

Lemma listener_reports_failure_witness :
  handleMessage mailUp deadSock 1 "a" "/start" emptyWorld
  = (Thrown "Connection Closed",
     mkWorld ∅ [("a", menu)] [] [commandLine "a" "/start" []])
  ∧ upsertLoop mailUp deadSock
      [(1, mkMessage (mkKey false (Some "a"))
                     (Some (mkContent (Some "/start") None)))] emptyWorld
    = upsertLoop mailUp deadSock []
        (afterCatch "a" "Connection Closed"
           (mkWorld ∅ [("a", menu)] [] [commandLine "a" "/start" []])).
Proof.
  assert (handleMessage mailUp deadSock 1 "a" "/start" emptyWorld
          = (Thrown "Connection Closed",
             mkWorld ∅ [("a", menu)] [] [commandLine "a" "/start" []])) as Hm
    by reflexivity.
  split; [exact Hm|].
  destruct (listener_reports_failure mailUp deadSock 1
              (mkMessage (mkKey false (Some "a"))
                         (Some (mkContent (Some "/start") None)))
              [] "a" emptyWorld _ _ eq_refl eq_refl eq_refl Hm) as (Hl & _).
  exact Hl.
Defined.

(** ** The pairing code *)

Lemma flush_spec (cur : list N) :
  concat (flush cur) = rev cur
  ∧ Forall (λ g, (1 ≤ length g ≤ length cur)%nat) (flush cur).
Proof.
  destruct cur as [|u cur]; [split; [reflexivity|constructor]|].
  cbn [flush concat]. rewrite app_nil_r. split; [reflexivity|].
  constructor; [|constructor]. rewrite length_rev. cbn. lia.
Qed.

Lemma match4_go_spec (s cur : list N) (k : nat) :
  Forall (λ u, isLineTerminator u = false) s →
  k = length cur → (k ≤ 4)%nat →
  concat (match4_go k cur s) = rev cur ++ s
  ∧ Forall (λ g, (1 ≤ length g ≤ 4)%nat) (match4_go k cur s).
Proof.
  revert cur k. induction s as [|u s IH]; intros cur k Hs Hk Hle.
  - cbn [match4_go]. destruct (flush_spec cur) as [Hc Hf].
    rewrite app_nil_r. split; [exact Hc|].
    eapply Forall_impl; [exact Hf|]. cbn. intros g ?. lia.
  - apply Forall_cons in Hs as [Hu Hs].
    cbn [match4_go]. rewrite Hu. destruct (k <? 4)%nat eqn:Hlt.
    + apply Nat.ltb_lt in Hlt.
      destruct (IH (u :: cur) (S k) Hs) as [H1 H2]; [cbn; lia|lia|].
      split; [|exact H2]. rewrite H1. cbn [rev]. rewrite <- app_assoc.
      reflexivity.
    + apply Nat.ltb_ge in Hlt.
      destruct (IH [u] 1%nat Hs) as [H1 H2]; [reflexivity|lia|].
      split.
      * cbn [concat]. rewrite H1. reflexivity.
      * constructor; [|exact H2]. rewrite length_rev. lia.
Qed.

Lemma match4_go_nil (s cur : list N) (k : nat) :
  match4_go k cur s = [] ↔ cur = [] ∧ Forall (λ u, isLineTerminator u = true) s.
Proof.
  revert cur k. induction s as [|u s IH]; intros cur k.
  - cbn [match4_go]. destruct cur; cbn [flush]; split;
      try (intros [? _]); try discriminate; auto.
  - cbn [match4_go]. rewrite Forall_cons.
    destruct (isLineTerminator u).
    + split.
      * intros H. apply app_eq_nil in H as [H1 H2].
        apply IH in H2 as [_ H2]. split; [|auto].
        destruct cur; [reflexivity|discriminate].
      * intros [-> [_ H]]. cbn [flush app]. apply IH. auto.
    + destruct (k <? 4)%nat.
      * rewrite IH. split; [intros [? ?]|intros [_ [? _]]]; discriminate.
      * split; [discriminate|]. intros [_ [? _]]. discriminate.
Qed.

(** X21.  The pairing code is shown in groups of at most four code units:
    the formatting throws exactly when the code has no code unit the dot
    matches (so for the empty code); for a code without line terminators
    the groups put together give the code back and each has one to four
    code units; a code of eight code units is shown as four, a dash, four,
    and spaces up to width 37. *)
Theorem pairing_code_groups (code : list N) :
  (formatPairingCode code = None
   ↔ Forall (λ u, isLineTerminator u = true) code)
  ∧ (Forall (λ u, isLineTerminator u = false) code → code ≠ [] →
     ∃ groups,
       formatPairingCode code = Some (padEnd 37 (joinDash groups))
       ∧ concat groups = code
       ∧ Forall (λ g, (1 ≤ length g ≤ 4)%nat) groups)
  ∧ (∀ a b c d e f g i : N,
       Forall (λ u, isLineTerminator u = false) [a; b; c; d; e; f; g; i] →
       formatPairingCode [a; b; c; d; e; f; g; i]
       = Some ([a; b; c; d; 45%N; e; f; g; i] ++ replicate 28 32%N)).
Proof.
  split; [|split].
  3:{ intros a b c d e f g i H.
      repeat (apply Forall_cons in H as [? H]).
      unfold formatPairingCode, match4. cbn [match4_go].
      repeat match goal with Hc : isLineTerminator _ = false |- _ =>
        rewrite Hc; clear Hc end.
      reflexivity. }
  all: unfold formatPairingCode, match4.
  - pose proof (match4_go_nil code [] 0) as Hn.
    destruct (match4_go 0 [] code) eqn:E.
    + split; [intros _; apply Hn; reflexivity|reflexivity].
    + split; [discriminate|]. intros H.
      assert (l :: l0 = []) as Hc by (apply Hn; auto). discriminate Hc.
  - intros Hs Hne.
    destruct (match4_go_spec code [] 0 Hs eq_refl) as [Hc Hf]; [lia|].
    cbn [rev app] in Hc.
    destruct (match4_go 0 [] code) as [|g groups] eqn:E.
    + exfalso. apply Hne. cbn in Hc. congruence.
    + exists (g :: groups). auto.
Qed.

Lemma pairing_code_groups_witness :
  Forall (λ u, isLineTerminator u = false) [65; 66; 67; 68; 69; 49]%N
  ∧ [65; 66; 67; 68; 69; 49]%N ≠ []
  ∧ (∃ groups, formatPairingCode [65; 66; 67; 68; 69; 49]%N
               = Some (padEnd 37 (joinDash groups))
               ∧ concat groups = [65; 66; 67; 68; 69; 49]%N
               ∧ Forall (λ g, (1 ≤ length g ≤ 4)%nat) groups)
  ∧ formatPairingCode [65; 66; 67; 68; 49; 50; 51; 52]%N
    = Some ([65; 66; 67; 68; 45; 49; 50; 51; 52]%N ++ replicate 28 32%N).
Proof.
  assert (Forall (λ u, isLineTerminator u = false) [65; 66; 67; 68; 69; 49]%N)
    as Hs by (repeat constructor).
  assert ([65; 66; 67; 68; 69; 49]%N ≠ []) as Hne by discriminate.
  split; [exact Hs|]. split; [exact Hne|].
  destruct (pairing_code_groups [65; 66; 67; 68; 69; 49]%N)
    as (_ & Hgroups & Height).
  split; [exact (Hgroups Hs Hne)|].
  apply (Height 65 66 67 68 49 50 51 52)%N. repeat constructor.
Defined.

(** ** The pieces of a trimmed message *)














(** ** White space outside ASCII *)

(** A no-break space separates the command from its arguments, as the
    line and paragraph separators and the other Unicode spaces do. *)
Example no_break_space_separates :
  split_ws (trim ("/activate " +:+ bytes [194; 160] +:+ " a@b.com"))
  = ["/activate"; "a@b.com"]
  ∧ split_ws (trim ("/start" +:+ bytes [194; 160] +:+ "now")) = ["/start"; "now"]
  ∧ split_ws (trim ("/activate a" +:+ bytes [194; 160] +:+ "@b.com"))
    = ["/activate"; "a"; "@b.com"]
  ∧ split_ws (trim (bytes [239; 187; 191] +:+ "/Status"
                      +:+ bytes [226; 128; 168] +:+ bytes [227; 128; 128]))
    = ["/Status"]
  ∧ sent (handleMessage mailUp openSock 5 "u1"
            ("/start" +:+ bytes [194; 160] +:+ "now") emptyWorld).2
    = [("u1", menu)]
  ∧ sent (handleMessage mailUp openSock 5 "u1"
            ("/activate a" +:+ bytes [194; 160] +:+ "@b.com") emptyWorld).2
    = [("u1", usageError)].
Proof. vm_compute. repeat split. Qed.
